(** * Masked mean pooling and export driver of [src/convertModel.py]

    The script wraps a pretrained encoder in [SentenceEmbeddingModel], whose
    [forward] pools the encoder's per-token hidden states with the attention
    mask, and [main] traces that module once and saves the traced graph.

    Scalars are IEEE-754 binary32 values ([torch.float32]), modelled with the
    executable specification of [SpecFloat] at precision 24 and maximal
    exponent 128 (round to nearest, ties to even).  Tensors are nested lists
    that carry their sizes, as a tensor of size (B, 0, H) still knows H.
    [torch.sum] is modelled as the left-to-right sum that starts at +0. *)

From Stdlib Require Import String ZArith List Bool Lia PeanoNat.
From Stdlib Require Import Floats.SpecFloat.
Import ListNotations.

Local Open Scope Z_scope.

(** ** binary32 scalars *)

Module F32.

Definition prec : Z := 24.
Definition emax : Z := 128.

Definition float32 : Type := spec_float.

Definition zero : float32 := S754_zero false.
Definition nan : float32 := S754_nan.
Definition pinf : float32 := S754_infinity false.

Definition add : float32 -> float32 -> float32 := SFadd prec emax.
Definition mul : float32 -> float32 -> float32 := SFmul prec emax.
Definition div : float32 -> float32 -> float32 := SFdiv prec emax.
Definition ltb : float32 -> float32 -> bool := SFltb.
Definition leb : float32 -> float32 -> bool := SFleb.
Definition abs : float32 -> float32 := SFabs.

(** [Tensor.float()] on an integer tensor: the nearest binary32 value. *)
Definition of_int (z : Z) : float32 := binary_normalize prec emax z 0 false.

Definition one : float32 := Eval cbv in of_int 1.
Definition two : float32 := Eval cbv in of_int 2.

(** The Python literal [1e-9] as the kernel sees it on a float32 tensor:
    9007199 * 2^-53, the binary32 value nearest to 10^-9. *)
Definition min_count : float32 := S754_finite false 9007199 (-53).

(** [torch.clamp(x, min=lo)]: NaN stays NaN, otherwise the larger of the
    two. *)
Definition clamp_min (lo x : float32) : float32 :=
  match x with
  | S754_nan => S754_nan
  | _ => if ltb x lo then lo else x
  end.

Definition is_nan (x : float32) : bool :=
  match x with S754_nan => true | _ => false end.

Definition is_inf (x : float32) : bool :=
  match x with S754_infinity _ => true | _ => false end.

Definition is_finite (x : float32) : bool :=
  match x with
  | S754_zero _ | S754_finite _ _ _ => true
  | _ => false
  end.

Definition is_zero (x : float32) : bool :=
  match x with S754_zero _ => true | _ => false end.

(** A value of the binary32 format: the mantissa and exponent of a finite
    number are the canonical ones of the format. *)
Definition valid (x : float32) : bool := valid_binary prec emax x.

(** Equality of values, as [==] on floats sees it for numbers (+0 and -0
    are one value); NaN is only related to NaN. *)
Definition same_value (x y : float32) : Prop :=
  x = y \/ (is_zero x = true /\ is_zero y = true).

(** [m] shifted left by [k] binary places. *)
Definition shl (m : positive) (k : nat) : positive := Nat.iter k xO m.

(** A mantissa with no bits shifted out of it. *)
Definition exact (m : positive) : shr_record :=
  {| shr_m := Zpos m; shr_r := false; shr_s := false |}.

(** A positive integer below 2^24, as a binary32 number. *)
Definition int32 (p : positive) : float32 :=
  S754_finite false
    (shl p (Z.to_nat (24 - Zpos (digits2_pos p))))
    (Zpos (digits2_pos p) - 24).

End F32.

Import F32.

(** ** Tensors *)

Section ListOps.
Context {A B C : Type}.

Fixpoint zip_with (f : A -> B -> C) (xs : list A) (ys : list B) : list C :=
  match xs, ys with
  | x :: xs', y :: ys' => f x y :: zip_with f xs' ys'
  | _, _ => []
  end.
End ListOps.

(** A tensor with three dimensions: its size and its entries, outermost
    dimension first. *)
Record tensor3 (A : Type) : Type := T3 {
  size0 : nat;
  size1 : nat;
  size2 : nat;
  data3 : list (list (list A))
}.

(** A tensor with two dimensions. *)
Record tensor2 (A : Type) : Type := T2 {
  nrows : nat;
  ncols : nat;
  data2 : list (list A)
}.

Arguments T3 {A} _ _ _ _.
Arguments size0 {A} _.
Arguments size1 {A} _.
Arguments size2 {A} _.
Arguments data3 {A} _.
Arguments T2 {A} _ _ _.
Arguments nrows {A} _.
Arguments ncols {A} _.
Arguments data2 {A} _.

Section Shapes.
Context {A : Type}.

Definition has_len (n : nat) (l : list A) : bool := Nat.eqb (length l) n.

(** The entries of a tensor fill its size. *)
Definition shape_ok2 (t : tensor2 A) : bool :=
  Nat.eqb (length (data2 t)) (nrows t)
  && forallb (has_len (ncols t)) (data2 t).

Definition shape_ok3 (t : tensor3 A) : bool :=
  Nat.eqb (length (data3 t)) (size0 t)
  && forallb (fun m => Nat.eqb (length m) (size1 t)
                       && forallb (has_len (size2 t)) m) (data3 t).

Definition get2 (d : A) (t : tensor2 A) (b h : nat) : A :=
  nth h (nth b (data2 t) []) d.

Definition get3 (d : A) (t : tensor3 A) (b i h : nat) : A :=
  nth h (nth i (nth b (data3 t) []) []) d.

(** [Tensor.unsqueeze(-1)]: a new innermost dimension of size 1. *)
Definition unsqueeze_last (t : tensor2 A) : tensor3 A :=
  T3 (nrows t) (ncols t) 1 (map (map (fun x => [x])) (data2 t)).

(** One dimension of [Tensor.expand]: a dimension that already has the
    requested size is kept, a dimension of size 1 is repeated, anything
    else is the RuntimeError of [expand]. *)
Definition expand_dim {X : Type} (have want : nat) (l : list X)
  : option (list X) :=
  if Nat.eqb have want then Some l
  else match have, l with
       | 1%nat, [x] => Some (repeat x want)
       | _, _ => None
       end.

Fixpoint sequence {X : Type} (l : list (option X)) : option (list X) :=
  match l with
  | [] => Some []
  | None :: _ => None
  | Some x :: l' =>
      match sequence l' with
      | Some r => Some (x :: r)
      | None => None
      end
  end.

(** [Tensor.expand(size)] to a size (n0, n1, n2). *)
Definition expand3 (t : tensor3 A) (n0 n1 n2 : nat) : option (tensor3 A) :=
  match sequence (map (fun m =>
           match sequence (map (expand_dim (size2 t) n2) m) with
           | Some m' => expand_dim (size1 t) n1 m'
           | None => None
           end) (data3 t)) with
  | Some d =>
      match expand_dim (size0 t) n0 d with
      | Some d' => Some (T3 n0 n1 n2 d')
      | None => None
      end
  | None => None
  end.
End Shapes.

(** [Tensor.float()] on an integer tensor. *)
Definition float3 (t : tensor3 Z) : tensor3 float32 :=
  T3 (size0 t) (size1 t) (size2 t) (map (map (map of_int)) (data3 t)).

(** Elementwise product of two tensors of one size. *)
Definition mul3 (x y : tensor3 float32) : tensor3 float32 :=
  T3 (size0 x) (size1 x) (size2 x)
     (zip_with (zip_with (zip_with mul)) (data3 x) (data3 y)).

(** Sum of the vectors of one example, from +0 in every coordinate. *)
Definition sum_rows (n : nat) (m : list (list float32)) : list float32 :=
  fold_left (zip_with add) m (repeat zero n).

(** [torch.sum(x, dim=1)] and [x.sum(dim=1)]. *)
Definition sum_dim1 (x : tensor3 float32) : tensor2 float32 :=
  T2 (size0 x) (size2 x) (map (sum_rows (size2 x)) (data3 x)).

(** [torch.clamp(x, min=lo)]. *)
Definition clamp2 (lo : float32) (x : tensor2 float32) : tensor2 float32 :=
  T2 (nrows x) (ncols x) (map (map (clamp_min lo)) (data2 x)).

(** Elementwise quotient of two tensors of one size. *)
Definition div2 (x y : tensor2 float32) : tensor2 float32 :=
  T2 (nrows x) (ncols x) (zip_with (zip_with div) (data2 x) (data2 y)).

(** ** [SentenceEmbeddingModel.forward] *)

(** Lines 21 to 27 of the source: the pooling of the encoder's
    [last_hidden_state] with the attention mask.  [None] is the RuntimeError
    that [expand] raises when the mask does not fit the hidden states. *)
Definition mean_pool (token_embeddings : tensor3 float32)
    (attention_mask : tensor2 Z) : option (tensor2 float32) :=
  match expand3 (unsqueeze_last attention_mask)
          (size0 token_embeddings) (size1 token_embeddings)
          (size2 token_embeddings) with
  | None => None
  | Some expanded =>
      let input_mask_expanded := float3 expanded in
      let sum_embeddings :=
        sum_dim1 (mul3 token_embeddings input_mask_expanded) in
      let sum_mask := clamp2 min_count (sum_dim1 input_mask_expanded) in
      let mean_embeddings := div2 sum_embeddings sum_mask in
      Some mean_embeddings
  end.

Section Forward.
(** The pretrained encoder, [self.model]: token ids and mask to
    [last_hidden_state]. *)
Variable encoder : tensor2 Z -> tensor2 Z -> tensor3 float32.

Definition forward (input_ids attention_mask : tensor2 Z)
  : option (tensor2 float32) :=
  let token_embeddings := encoder input_ids attention_mask in
  mean_pool token_embeddings attention_mask.
End Forward.


(** ** The pooling of one example *)

(** Left-to-right sum of scalars from +0. *)
Definition fsum (l : list float32) : float32 := fold_left add l zero.

(** What lines 21 to 27 compute for one example of the batch: its token
    vectors [rows] (each of length [n]) and its mask row [m]. *)
Definition pool_row (n : nat) (rows : list (list float32)) (m : list Z)
  : list float32 :=
  let expanded := map (fun z => repeat (of_int z) n) m in
  zip_with div
    (sum_rows n (zip_with (zip_with mul) rows expanded))
    (map (clamp_min min_count) (sum_rows n expanded)).

(** ** The contract of section 4.1, step by step *)

Definition tabulate {X : Type} (n : nat) (f : nat -> X) : list X :=
  map f (seq 0 n).

Section Contract.
Variable hidden : tensor3 float32.
Variable mask : tensor2 Z.

(** Step 1: the mask broadcast along the hidden dimension, as floats. *)
Definition spec_mask_expanded (b t h : nat) : float32 :=
  of_int (get2 0 mask b t).

(** Step 2: product with the hidden states, summed over the sequence. *)
Definition spec_sum_embeddings (b h : nat) : float32 :=
  fsum (map (fun t => mul (get3 zero hidden b t h)
                          (spec_mask_expanded b t h))
            (seq 0 (size1 hidden))).

(** Step 3: token counts, clamped from below. *)
Definition spec_sum_mask (b h : nat) : float32 :=
  clamp_min min_count
    (fsum (map (fun t => spec_mask_expanded b t h) (seq 0 (size1 hidden)))).

(** Step 4: the quotient, entry by entry. *)
Definition spec_masked_mean : tensor2 float32 :=
  T2 (size0 hidden) (size2 hidden)
     (tabulate (size0 hidden) (fun b =>
        tabulate (size2 hidden) (fun h =>
          div (spec_sum_embeddings b h) (spec_sum_mask b h)))).
End Contract.

(** ** Plain means, masks *)

(** The token vectors at the positions the mask keeps. *)
Definition unmasked (rows : list (list float32)) (m : list Z)
  : list (list float32) :=
  map fst (filter (fun p => negb (Z.eqb (snd p) 0)) (combine rows m)).

(** The mean of [vs] over the sequence dimension, [torch.mean(dim)]: the
    sum divided by the number of vectors. *)
Definition plain_mean (n : nat) (vs : list (list float32)) : list float32 :=
  map (fun s => div s (of_int (Z.of_nat (length vs)))) (sum_rows n vs).

Definition binary_row (m : list Z) : bool :=
  forallb (fun z => Z.eqb z 0 || Z.eqb z 1) m.

Definition zero_row (m : list Z) : bool := forallb (fun z => Z.eqb z 0) m.

Definition ones_row (m : list Z) : bool := forallb (fun z => Z.eqb z 1) m.

(** Number of positions the mask keeps. *)
Definition kept (m : list Z) : nat :=
  length (filter (fun z => negb (Z.eqb z 0)) m).

Definition all_entries (p : float32 -> bool) (t : tensor3 float32) : bool :=
  forallb (forallb (forallb p)) (data3 t).

Definition all_entries2 (p : float32 -> bool) (t : tensor2 float32) : bool :=
  forallb (forallb p) (data2 t).

(** The mask has the batch and sequence sizes of the hidden states. *)
Definition mask_fits (hidden : tensor3 float32) (mask : tensor2 Z) : bool :=
  shape_ok2 mask
  && Nat.eqb (nrows mask) (size0 hidden)
  && Nat.eqb (ncols mask) (size1 hidden).

(** Every entry is a value of the binary32 format. *)
Definition all_valid (rows : list (list float32)) : bool :=
  forallb (forallb valid) rows.

(** The token vectors at the positions the mask drops hold finite
    numbers. *)
Definition masked_finite (rows : list (list float32)) (m : list Z) : bool :=
  forallb (fun p => negb (Z.eqb (snd p) 0) || forallb is_finite (fst p))
          (combine rows m).

(** The mask row keeps at least one position, and few enough that binary32
    counts them exactly (fewer than 2^24). *)
Definition kept_exact (m : list Z) : bool :=
  Nat.leb 1 (kept m) && Z.ltb (Z.of_nat (kept m)) (2 ^ 24).

(** Number of positions the mask drops. *)
Definition dropped (m : list Z) : nat :=
  length (filter (fun z => Z.eqb z 0) m).

(** For every example, the hidden values at dropped positions are finite. *)
Definition dropped_finite (hidden : tensor3 float32) (mask : tensor2 Z)
  : bool :=
  forallb (fun p => masked_finite (fst p) (snd p))
          (combine (data3 hidden) (data2 mask)).

(** A batch of one example with the two token vectors [v1] and [v2]. *)
Definition two_tokens (v1 v2 : list float32) : tensor3 float32 :=
  T3 1 2 (length v1) [ [v1; v2] ].

(** ** The export driver, [main] *)

Module Driver.

Local Open Scope string_scope.

Section Script.
(** What the external libraries hand back, and what they raise. *)
Variables Tokenizer Encoder Encoding Traced Error : Type.

(** The [nn.Module] state of the wrapper: the encoder it owns and the
    [training] flag. *)
Record Module : Type := { model : Encoder; training : bool }.

(** The calls a script makes into the libraries and the interpreter.
    The last two are where a script reads its flags and its
    environment. *)
Inductive call : Type -> Type :=
| AutoTokenizer_from_pretrained (name : string) : call Tokenizer
| AutoModel_from_pretrained (name : string) : call Encoder
| tokenizer_call (tok : Tokenizer) (text return_tensors : string)
    (padding truncation : bool) : call Encoding
| getitem (enc : Encoding) (key : string) : call (tensor2 Z)
| jit_trace (m : Module) (input_ids attention_mask : tensor2 Z)
  : call Traced
| save (t : Traced) (file : string) : call unit
| print (s : string) : call unit
| sys_argv : call (list string)
| os_getenv (name : string) : call (option string).

(** Straight-line scripts: a call and the rest.  There is no handler
    construct, as the source has no [try]. *)
Inductive prog (R : Type) : Type :=
| Ret (r : R)
| Do {X : Type} (c : call X) (k : X -> prog R).

Arguments Ret {R} _.
Arguments Do {R X} _ _.

Fixpoint bind {R S : Type} (p : prog R) (f : R -> prog S) : prog S :=
  match p with
  | Ret r => f r
  | Do c k => Do c (fun x => bind (k x) f)
  end.

Definition perform {X : Type} (c : call X) : prog X := Do c Ret.

Notation "x <- p ;; q" := (bind p (fun x => q))
  (at level 61, p at next level, right associativity).

(** [SentenceEmbeddingModel.__init__]: a module starts in training
    mode. *)
Definition SentenceEmbeddingModel (model_name : string) : prog Module :=
  enc <- perform (AutoModel_from_pretrained model_name) ;;
  Ret {| model := enc; training := true |}.

(** [Module.eval()]. *)
Definition eval (m : Module) : Module :=
  {| model := model m; training := false |}.

Definition main : prog unit :=
  let model_name := "./data/models/all-MiniLM-L12-v2" in
  tokenizer <- perform (AutoTokenizer_from_pretrained model_name) ;;
  model <- SentenceEmbeddingModel model_name ;;
  let model := eval model in
  let sample_text := "This is a test sentence." in
  encoded <- perform (tokenizer_call tokenizer sample_text "pt" true true) ;;
  input_ids <- perform (getitem encoded "input_ids") ;;
  attention_mask <- perform (getitem encoded "attention_mask") ;;
  traced_model <- perform (jit_trace model input_ids attention_mask) ;;
  let output_file := "rust_model.ot" in
  _ <- perform (save traced_model output_file) ;;
  perform (print ("TorchScript model saved to " ++ output_file)).

(** A call together with what it returned or raised. *)
Record event : Type := Ev {
  ev_type : Type;
  ev_call : call ev_type;
  ev_result : Error + ev_type
}.

Definition raised (ev : event) : option Error :=
  match ev_result ev with inl e => Some e | inr _ => None end.

Definition returned (ev : event) : bool :=
  match ev_result ev with inl _ => false | inr _ => true end.

(** Names of the files an event writes. *)
Definition written (ev : event) : list string :=
  match ev_call ev, ev_result ev with
  | save _ file, inr _ => [file]
  | _, _ => []
  end.

Definition printed (ev : event) : list string :=
  match ev_call ev, ev_result ev with
  | print s, inr _ => [s]
  | _, _ => []
  end.

Definition reads_flags_or_env (ev : event) : bool :=
  match ev_call ev with
  | sys_argv | os_getenv _ => true
  | _ => false
  end.

(** The callee of an event, as the source writes it. *)
Definition callee (ev : event) : string :=
  match ev_call ev with
  | AutoTokenizer_from_pretrained _ => "AutoTokenizer.from_pretrained"
  | AutoModel_from_pretrained _ => "AutoModel.from_pretrained"
  | tokenizer_call _ _ _ _ _ => "tokenizer"
  | getitem _ key => "encoded[" ++ key ++ "]"
  | jit_trace _ _ _ => "torch.jit.trace"
  | save _ _ => "traced_model.save"
  | print _ => "print"
  | sys_argv => "sys.argv"
  | os_getenv _ => "os.getenv"
  end.

(** The calls of [main] in the order of its statements. *)
Definition script_calls : list string :=
  [ "AutoTokenizer.from_pretrained"; "AutoModel.from_pretrained";
    "tokenizer"; "encoded[input_ids]"; "encoded[attention_mask]";
    "torch.jit.trace"; "traced_model.save"; "print" ].

(** How a run ends: either every call returned, or the last call of
    the trace raised the error the run ends with and every call before
    it returned. *)
Definition outcome {R : Type} (r : Error + R) (evs : list event) : Prop :=
  match r with
  | inl e => exists pre ev,
      evs = (pre ++ [ev])%list /\ forallb returned pre = true /\
      raised ev = Some e
  | inr _ => forallb returned evs = true
  end.

Section Run.
(** The rest of the world, and how it answers a call. *)
Variable World : Type.
Variable handle : forall X : Type, call X -> World -> (Error + X) * World.

(** Running a script: an exception ends the run where it is raised. *)
Fixpoint run {R : Type} (p : prog R) (w : World) (log : list event)
  : (Error + R) * World * list event :=
  match p with
  | Ret r => (inr r, w, log)
  | Do c k =>
      match handle _ c w with
      | (inl e, w') => (inl e, w', (log ++ [Ev _ c (inl e)])%list)
      | (inr x, w') => run (k x) w' (log ++ [Ev _ c (inr x)])%list
      end
  end.
End Run.
End Script.

Arguments Ret {Tokenizer Encoder Encoding Traced R} _.
Arguments Do {Tokenizer Encoder Encoding Traced R X} _ _.
Arguments AutoTokenizer_from_pretrained {Tokenizer Encoder Encoding Traced} _.
Arguments AutoModel_from_pretrained {Tokenizer Encoder Encoding Traced} _.
Arguments tokenizer_call {Tokenizer Encoder Encoding Traced} _ _ _ _ _.
Arguments getitem {Tokenizer Encoder Encoding Traced} _ _.
Arguments jit_trace {Tokenizer Encoder Encoding Traced} _ _ _.
Arguments save {Tokenizer Encoder Encoding Traced} _ _.
Arguments print {Tokenizer Encoder Encoding Traced} _.
Arguments sys_argv {Tokenizer Encoder Encoding Traced}.
Arguments os_getenv {Tokenizer Encoder Encoding Traced} _.
Arguments Build_Module {Encoder} _ _.
Arguments model {Encoder} _.
Arguments training {Encoder} _.
Arguments eval {Encoder} _.
Arguments main {Tokenizer Encoder Encoding Traced}.
Arguments Ev {Tokenizer Encoder Encoding Traced Error ev_type} _ _.
Arguments ev_call {Tokenizer Encoder Encoding Traced Error} _.
Arguments ev_result {Tokenizer Encoder Encoding Traced Error} _.
Arguments raised {Tokenizer Encoder Encoding Traced Error} _.
Arguments returned {Tokenizer Encoder Encoding Traced Error} _.
Arguments written {Tokenizer Encoder Encoding Traced Error} _.
Arguments printed {Tokenizer Encoder Encoding Traced Error} _.
Arguments reads_flags_or_env {Tokenizer Encoder Encoding Traced Error} _.
Arguments callee {Tokenizer Encoder Encoding Traced Error} _.
Arguments outcome {Tokenizer Encoder Encoding Traced Error R} r evs.
Arguments run {Tokenizer Encoder Encoding Traced Error World} handle {R} p w log.

(** *** Two worlds to run the script in *)

(** A file system: names and what was saved under them. *)
Definition Files : Type := list (string * string).

Definition sample_ids : tensor2 Z :=
  T2 1 8 [ [101; 2023; 2003; 1037; 3231; 6251; 1012; 102] ].

Definition sample_mask : tensor2 Z := T2 1 8 [ [1; 1; 1; 1; 1; 1; 1; 1] ].

(** Every library call succeeds; [save] writes the file. *)
Definition handle_ok (X : Type) (c : call unit unit unit string X)
    (w : Files) : (string + X) * Files :=
  match c in call _ _ _ _ X return (string + X) * Files with
  | AutoTokenizer_from_pretrained _ => (inr tt, w)
  | AutoModel_from_pretrained _ => (inr tt, w)
  | tokenizer_call _ _ _ _ _ => (inr tt, w)
  | getitem _ key =>
      (inr (if String.eqb key "input_ids" then sample_ids
            else sample_mask), w)
  | jit_trace _ _ _ => (inr "graph", w)
  | save t file => (inr tt, (file, t) :: w)
  | print _ => (inr tt, w)
  | sys_argv => (inr [], w)
  | os_getenv _ => (inr None, w)
  end.

(** The tracer rejects the module. *)
Definition handle_trace_fails (X : Type) (c : call unit unit unit string X)
    (w : Files) : (string + X) * Files :=
  match c in call _ _ _ _ X return (string + X) * Files with
  | jit_trace _ _ _ => (inl "unsupported operation", w)
  | c' => handle_ok _ c' w
  end.

End Driver.

(** ** What the calls of a run are made with *)

Module DriverArgs.

Import Driver.
Local Open Scope string_scope.

Section Args.
Variables Tokenizer Encoder Encoding Traced Error : Type.

(** The [training] flag of the module handed to the tracer. *)
Definition traced_in_training
    (ev : event Tokenizer Encoder Encoding Traced Error) : bool :=
  match ev_call ev with
  | jit_trace m _ _ => training m
  | _ => false
  end.

(** The paths an event loads from. *)
Definition loaded_from
    (ev : event Tokenizer Encoder Encoding Traced Error) : list string :=
  match ev_call ev with
  | AutoTokenizer_from_pretrained name => [name]
  | AutoModel_from_pretrained name => [name]
  | _ => []
  end.

(** The files an event asks to save to, whether the save returns or not. *)
Definition save_target
    (ev : event Tokenizer Encoder Encoding Traced Error) : list string :=
  match ev_call ev with
  | save _ file => [file]
  | _ => []
  end.
End Args.

Arguments traced_in_training {Tokenizer Encoder Encoding Traced Error} _.
Arguments loaded_from {Tokenizer Encoder Encoding Traced Error} _.
Arguments save_target {Tokenizer Encoder Encoding Traced Error} _.


End DriverArgs.

(** ** Sample inputs *)

Module Samples.

(** Two examples of two tokens, hidden size 2. *)
Definition hidden : tensor3 float32 :=
  T3 2 2 2 [ [ [of_int 3; of_int 5]; [of_int 7; of_int 10] ];
             [ [of_int 1; of_int (-2)]; [of_int 4; of_int 8] ] ].

Definition mask : tensor2 Z := T2 2 2 [ [1; 1]; [1; 0] ].

(** The same batch with another second example. *)
Definition hidden' : tensor3 float32 :=
  T3 2 2 2 [ [ [of_int 3; of_int 5]; [of_int 7; of_int 10] ];
             [ [of_int 9; of_int 9]; [pinf; nan] ] ].

Definition mask' : tensor2 Z := T2 2 2 [ [1; 1]; [0; 0] ].

Definition zero_mask : tensor2 Z := T2 2 2 [ [0; 0]; [0; 0] ].

(** One example whose masked token holds an infinity. *)
Definition hidden_inf : tensor3 float32 :=
  T3 1 2 1 [ [ [of_int 3]; [pinf] ] ].

Definition mask_10 : tensor2 Z := T2 1 2 [ [1; 0] ].

Definition mask_00 : tensor2 Z := T2 1 2 [ [0; 0] ].

End Samples.

(** ** The denominator on its own *)

(** Line 25 of the source: the mask expanded as in [mean_pool], summed over
    the sequence and clamped from below. *)
Definition sum_mask (token_embeddings : tensor3 float32)
    (attention_mask : tensor2 Z) : option (tensor2 float32) :=
  match expand3 (unsqueeze_last attention_mask)
          (size0 token_embeddings) (size1 token_embeddings)
          (size2 token_embeddings) with
  | None => None
  | Some expanded =>
      let input_mask_expanded := float3 expanded in
      Some (clamp2 min_count (sum_dim1 input_mask_expanded))
  end.

(** ** Padding *)

(** [pads] holds, for every example, the hidden states of the tokens added
    after its last token. *)
Definition pad_hidden (hidden pads : tensor3 float32) : tensor3 float32 :=
  T3 (size0 hidden) (size1 hidden + size1 pads) (size2 hidden)
     (zip_with (@app (list float32)) (data3 hidden) (data3 pads)).

(** The mask of a batch padded by [p] tokens: 0 at the added positions. *)
Definition pad_mask (mask : tensor2 Z) (p : nat) : tensor2 Z :=
  T2 (nrows mask) (ncols mask + p)
     (map (fun m => m ++ repeat 0 p) (data2 mask)).

(** ** More sample inputs *)

Module Samples2.

(** Three examples of two tokens, hidden size 2. *)
Definition hidden3 : tensor3 float32 :=
  T3 3 2 2 [ [ [of_int 3; of_int 5]; [of_int 7; of_int 10] ];
             [ [of_int 1; of_int (-2)]; [of_int 4; of_int 8] ];
             [ [of_int 6; of_int 0]; [of_int 2; of_int 2] ] ].

(** A mask for sequences of three tokens. *)
Definition mask_long : tensor2 Z := T2 3 3 [ [1; 1; 1]; [1; 1; 0]; [1; 0; 0] ].

(** A mask for two examples. *)
Definition mask_short : tensor2 Z := T2 2 2 [ [1; 1]; [1; 0] ].

(** [Samples.hidden] with other finite values where [Samples.mask] is 0. *)
Definition hidden_other_padding : tensor3 float32 :=
  T3 2 2 2 [ [ [of_int 3; of_int 5]; [of_int 7; of_int 10] ];
             [ [of_int 1; of_int (-2)]; [of_int (-100); of_int 77] ] ].

(** [Samples.hidden] with two more tokens per example, and the mask that
    drops them. *)
Definition hidden_padded : tensor3 float32 :=
  T3 2 4 2 [ [ [of_int 3; of_int 5]; [of_int 7; of_int 10];
               [of_int 9; of_int 9]; [of_int (-1); zero] ];
             [ [of_int 1; of_int (-2)]; [of_int 4; of_int 8];
               [of_int 9; of_int 9]; [of_int (-1); zero] ] ].

Definition mask_padded : tensor2 Z := T2 2 4 [ [1; 1; 0; 0]; [1; 0; 0; 0] ].

(** Two added tokens per example. *)
Definition pads : tensor3 float32 :=
  T3 2 2 2 [ [ [of_int 9; of_int 9]; [of_int (-1); zero] ];
             [ [of_int 9; of_int 9]; [of_int (-1); zero] ] ].

(** A NaN at a position the mask drops. *)
Definition hidden_nan : tensor3 float32 :=
  T3 1 2 2 [ [ [of_int 3; of_int 5]; [of_int 7; nan] ] ].

End Samples2.

(** * Properties *)

(** ** Lists *)

Section ListFacts.
Context {A B C : Type}.

Lemma zip_with_length (f : A -> B -> C) xs ys :
  length (zip_with f xs ys) = Nat.min (length xs) (length ys).
Proof.
  revert ys; induction xs as [|x xs IH]; intros [|y ys]; simpl; auto.
Qed.

Lemma zip_with_nth (f : A -> B -> C) xs ys i da db dc :
  (i < length xs)%nat -> (i < length ys)%nat ->
  nth i (zip_with f xs ys) dc = f (nth i xs da) (nth i ys db).
Proof.
  revert ys i; induction xs as [|x xs IH]; intros [|y ys] [|i]; simpl;
    intros; try lia; auto.
  apply IH; lia.
Qed.

Lemma zip_with_nth_error (f : A -> B -> C) xs ys i :
  nth_error (zip_with f xs ys) i =
  match nth_error xs i, nth_error ys i with
  | Some x, Some y => Some (f x y)
  | _, _ => None
  end.
Proof.
  revert ys i; induction xs as [|x xs IH]; intros [|y ys] [|i]; simpl; auto.
  destruct (nth_error xs i); reflexivity.
Qed.

Lemma sequence_map (f : A -> option B) (g : A -> B) l :
  (forall x, In x l -> f x = Some (g x)) ->
  sequence (map f l) = Some (map g l).
Proof.
  induction l as [|x l IH]; simpl; intros Hf; [reflexivity|].
  rewrite (Hf x) by auto. rewrite IH by auto. reflexivity.
Qed.

Lemma forallb_nth (p : A -> bool) l i d :
  forallb p l = true -> (i < length l)%nat -> p (nth i l d) = true.
Proof.
  intros Hp Hi. rewrite forallb_forall in Hp. apply Hp, nth_In, Hi.
Qed.
End ListFacts.

Lemma expand_dim_same {X : Type} (n : nat) (l : list X) :
  expand_dim n n l = Some l.
Proof. unfold expand_dim. rewrite Nat.eqb_refl. reflexivity. Qed.

Lemma expand_dim_one {X : Type} (n : nat) (x : X) :
  expand_dim 1 n [x] = Some (repeat x n).
Proof.
  unfold expand_dim. destruct (Nat.eqb 1 n) eqn:E; [|reflexivity].
  apply Nat.eqb_eq in E. subst n. reflexivity.
Qed.

(** ** Shapes *)

Lemma mask_fits_inv hidden mask :
  mask_fits hidden mask = true ->
  length (data2 mask) = size0 hidden /\
  nrows mask = size0 hidden /\ ncols mask = size1 hidden /\
  forall m, In m (data2 mask) -> length m = size1 hidden.
Proof.
  unfold mask_fits, shape_ok2. rewrite !andb_true_iff, !Nat.eqb_eq.
  intros [[[Hl Hr] Hb] Ht]. repeat split; try congruence.
  intros m Hm. rewrite forallb_forall in Hr. specialize (Hr m Hm).
  unfold has_len in Hr. apply Nat.eqb_eq in Hr. congruence.
Qed.

Lemma shape_ok3_inv {A : Type} (t : tensor3 A) :
  shape_ok3 t = true ->
  length (data3 t) = size0 t /\
  forall m, In m (data3 t) ->
    length m = size1 t /\ forall v, In v m -> length v = size2 t.
Proof.
  unfold shape_ok3. rewrite andb_true_iff, Nat.eqb_eq. intros [Hl Hr].
  split; [exact Hl|]. intros m Hm. rewrite forallb_forall in Hr.
  specialize (Hr m Hm). rewrite andb_true_iff, Nat.eqb_eq in Hr.
  destruct Hr as [Hm1 Hm2]. split; [exact Hm1|]. intros v Hv.
  rewrite forallb_forall in Hm2. specialize (Hm2 v Hv).
  unfold has_len in Hm2. apply Nat.eqb_eq in Hm2. exact Hm2.
Qed.

(** The expansion of a fitting mask always succeeds: every mask entry is
    repeated along the hidden dimension. *)
Lemma expand3_unsqueeze hidden mask :
  mask_fits hidden mask = true ->
  expand3 (unsqueeze_last mask) (size0 hidden) (size1 hidden) (size2 hidden)
  = Some (T3 (size0 hidden) (size1 hidden) (size2 hidden)
             (map (map (fun z => repeat z (size2 hidden))) (data2 mask))).
Proof.
  intros Hfit. destruct (mask_fits_inv _ _ Hfit) as (Hl & Hr & Hc & Hm).
  unfold expand3, unsqueeze_last; simpl.
  rewrite map_map.
  rewrite (sequence_map _ (map (fun z => repeat z (size2 hidden)))).
  - rewrite Hr, expand_dim_same. reflexivity.
  - intros m _. rewrite map_map.
    rewrite (sequence_map _ (fun z => repeat z (size2 hidden))).
    + rewrite Hc. apply expand_dim_same.
    + intros z _. apply expand_dim_one.
Qed.

Lemma pool_rows_eq n (D : list (list (list float32))) (M : list (list Z)) :
  zip_with (zip_with div)
    (map (sum_rows n)
       (zip_with (zip_with (zip_with mul)) D
          (map (map (map of_int)) (map (map (fun z => repeat z n)) M))))
    (map (map (clamp_min min_count))
       (map (sum_rows n)
          (map (map (map of_int)) (map (map (fun z => repeat z n)) M))))
  = zip_with (pool_row n) D M.
Proof.
  revert D; induction M as [|m M IH]; intros [|d D]; simpl; try reflexivity.
  rewrite IH. f_equal. unfold pool_row.
  rewrite !map_map.
  rewrite (map_ext (fun z => map of_int (repeat z n))
                   (fun z => repeat (of_int z) n))
    by (intros; apply map_repeat).
  reflexivity.
Qed.

(** [mean_pool] on a fitting mask: no error, and the examples of the batch
    are pooled one by one. *)
Lemma mean_pool_rows hidden mask :
  mask_fits hidden mask = true ->
  mean_pool hidden mask
  = Some (T2 (size0 hidden) (size2 hidden)
             (zip_with (pool_row (size2 hidden)) (data3 hidden) (data2 mask))).
Proof.
  intros Hfit. unfold mean_pool. rewrite (expand3_unsqueeze _ _ Hfit).
  unfold div2, clamp2, sum_dim1, mul3, float3; simpl.
  rewrite pool_rows_eq. reflexivity.
Qed.

(** ** Sums over the sequence dimension *)

Lemma zip_with_tabulate {A B C : Type} (f : A -> B -> C) xs ys da db :
  length xs = length ys ->
  zip_with f xs ys
  = tabulate (length xs) (fun i => f (nth i xs da) (nth i ys db)).
Proof.
  unfold tabulate.
  revert ys; induction xs as [|x xs IH]; intros [|y ys]; simpl;
    intros Hl; try discriminate; [reflexivity|].
  f_equal. rewrite <- seq_shift, map_map. apply IH. lia.
Qed.

Lemma map_tabulate {A B : Type} (f : A -> B) xs da :
  map f xs = tabulate (length xs) (fun i => f (nth i xs da)).
Proof.
  unfold tabulate. induction xs as [|x xs IH]; simpl; [reflexivity|].
  f_equal. rewrite <- seq_shift, map_map. exact IH.
Qed.

Lemma tabulate_length {X : Type} n (f : nat -> X) : length (tabulate n f) = n.
Proof. unfold tabulate. rewrite length_map, length_seq. reflexivity. Qed.

Lemma tabulate_nth {X : Type} n (f : nat -> X) i d :
  (i < n)%nat -> nth i (tabulate n f) d = f i.
Proof.
  intros Hi. unfold tabulate.
  rewrite (nth_indep _ d (f 0%nat)) by (rewrite length_map, length_seq; lia).
  rewrite map_nth, seq_nth by lia. reflexivity.
Qed.

Lemma tabulate_ext {X : Type} n (f g : nat -> X) :
  (forall i, (i < n)%nat -> f i = g i) -> tabulate n f = tabulate n g.
Proof.
  intros H. unfold tabulate. apply map_ext_in. intros i Hi.
  apply in_seq in Hi. apply H. lia.
Qed.

Lemma fold_zip_add_length n rows acc :
  length acc = n -> (forall v, In v rows -> length v = n) ->
  length (fold_left (zip_with add) rows acc) = n.
Proof.
  revert acc; induction rows as [|v rows IH]; simpl; intros acc Ha Hr; auto.
  apply IH; [|auto]. rewrite zip_with_length, Ha, (Hr v) by auto. lia.
Qed.

Lemma fold_zip_add_nth n rows acc h :
  length acc = n -> (forall v, In v rows -> length v = n) -> (h < n)%nat ->
  nth h (fold_left (zip_with add) rows acc) zero
  = fold_left add (map (fun v => nth h v zero) rows) (nth h acc zero).
Proof.
  revert acc; induction rows as [|v rows IH]; simpl; intros acc Ha Hr Hh; auto.
  rewrite IH; auto.
  - rewrite (zip_with_nth add acc v h zero zero zero); auto.
    + lia.
    + rewrite (Hr v); auto.
  - rewrite zip_with_length, Ha, (Hr v) by auto. lia.
Qed.

Lemma sum_rows_length n rows :
  (forall v, In v rows -> length v = n) -> length (sum_rows n rows) = n.
Proof. intros. apply fold_zip_add_length; auto. apply repeat_length. Qed.

Lemma sum_rows_nth n rows h :
  (forall v, In v rows -> length v = n) -> (h < n)%nat ->
  nth h (sum_rows n rows) zero = fsum (map (fun v => nth h v zero) rows).
Proof.
  intros Hr Hh. unfold sum_rows, fsum.
  rewrite (fold_zip_add_nth n); auto using repeat_length.
  rewrite nth_repeat_lt by exact Hh. reflexivity.
Qed.

Lemma zip_with_In {A B C : Type} (f : A -> B -> C) xs ys z :
  In z (zip_with f xs ys) -> exists x y, In x xs /\ In y ys /\ z = f x y.
Proof.
  revert ys; induction xs as [|x xs IH]; intros [|y ys]; simpl;
    try contradiction.
  intros [<-|Hz]; [exists x, y; auto|].
  destruct (IH _ Hz) as (x' & y' & ? & ? & ?). exists x', y'; auto.
Qed.

(** The rows of the masked product and of the expanded mask have the hidden
    size. *)
Lemma masked_rows_length n rows (m : list Z) v :
  (forall r, In r rows -> length r = n) ->
  In v (zip_with (zip_with mul) rows (map (fun z => repeat (of_int z) n) m)) ->
  length v = n.
Proof.
  intros Hr Hv. apply zip_with_In in Hv. destruct Hv as (r & e & Hr' & He & ->).
  apply in_map_iff in He. destruct He as (z & <- & _).
  rewrite zip_with_length, repeat_length, (Hr r) by auto. lia.
Qed.

Lemma expanded_rows_length n (m : list Z) v :
  In v (map (fun z => repeat (of_int z) n) m) -> length v = n.
Proof.
  intros Hv. apply in_map_iff in Hv. destruct Hv as (z & <- & _).
  apply repeat_length.
Qed.

Lemma pool_row_length n rows m :
  (forall r, In r rows -> length r = n) -> length (pool_row n rows m) = n.
Proof.
  intros Hr. unfold pool_row.
  rewrite zip_with_length, length_map, !sum_rows_length.
  - lia.
  - apply expanded_rows_length.
  - intros v. apply masked_rows_length, Hr.
Qed.

Lemma masked_column n rows (m : list Z) h :
  (forall r, In r rows -> length r = n) -> (h < n)%nat ->
  map (fun v => nth h v zero)
      (zip_with (zip_with mul) rows (map (fun z => repeat (of_int z) n) m))
  = zip_with (fun r z => mul (nth h r zero) (of_int z)) rows m.
Proof.
  intros Hr Hh. revert m; induction rows as [|r rows IH]; intros [|z m];
    simpl; try reflexivity.
  rewrite IH by (intros; apply Hr; simpl; auto). f_equal.
  rewrite (zip_with_nth mul r _ h zero zero zero).
  - rewrite nth_repeat_lt by exact Hh. reflexivity.
  - rewrite (Hr r) by (simpl; auto). exact Hh.
  - rewrite repeat_length. exact Hh.
Qed.

Lemma expanded_column n (m : list Z) h :
  (h < n)%nat ->
  map (fun v => nth h v zero) (map (fun z => repeat (of_int z) n) m)
  = map of_int m.
Proof.
  intros Hh. rewrite map_map. apply map_ext. intros z.
  apply nth_repeat_lt, Hh.
Qed.

(** One coordinate of the pooled vector of an example. *)
Lemma pool_row_nth n rows m h :
  (forall r, In r rows -> length r = n) -> (h < n)%nat ->
  nth h (pool_row n rows m) zero
  = div (fsum (zip_with (fun r z => mul (nth h r zero) (of_int z)) rows m))
        (clamp_min min_count (fsum (map of_int m))).
Proof.
  intros Hr Hh. unfold pool_row.
  set (expanded := map (fun z => repeat (of_int z) n) m).
  set (masked := zip_with (zip_with mul) rows expanded).
  assert (He : forall v, In v expanded -> length v = n)
    by apply expanded_rows_length.
  assert (Hm : forall v, In v masked -> length v = n)
    by (intros v; apply masked_rows_length, Hr).
  rewrite (zip_with_nth div _ _ h zero (clamp_min min_count zero) zero).
  - rewrite map_nth, !sum_rows_nth by assumption.
    unfold masked, expanded. rewrite masked_column, expanded_column by auto.
    reflexivity.
  - rewrite sum_rows_length; assumption.
  - rewrite length_map, sum_rows_length; assumption.
Qed.

(** ** The contract of the pooling *)

(** C1: on hidden states of size (B, T, H) and a mask of size (B, T),
    [mean_pool] returns exactly what the four steps of the contract
    describe: the mask broadcast along the hidden dimension and cast to
    float, the product with the hidden states summed over the sequence, the
    mask sum clamped from below by 1e-9, and the quotient of the two. *)
Theorem mean_pool_contract hidden mask :
  shape_ok3 hidden = true ->
  mask_fits hidden mask = true ->
  mean_pool hidden mask = Some (spec_masked_mean hidden mask).
Proof.
  intros Hs Hfit. rewrite (mean_pool_rows _ _ Hfit).
  destruct (shape_ok3_inv _ Hs) as [HB Hrows].
  destruct (mask_fits_inv _ _ Hfit) as (Hl & _ & _ & Hm).
  unfold spec_masked_mean. do 2 f_equal.
  rewrite (zip_with_tabulate _ _ _ [] []) by congruence.
  rewrite HB. apply tabulate_ext. intros b Hb.
  assert (Hin : In (nth b (data3 hidden) []) (data3 hidden))
    by (apply nth_In; lia).
  assert (Hinm : In (nth b (data2 mask) []) (data2 mask))
    by (apply nth_In; lia).
  destruct (Hrows _ Hin) as [HT HH]. specialize (Hm _ Hinm).
  apply (nth_ext _ _ zero zero).
  - rewrite pool_row_length, tabulate_length by exact HH. reflexivity.
  - intros h Hh. rewrite pool_row_length in Hh by exact HH.
    rewrite tabulate_nth, pool_row_nth by assumption.
    unfold spec_sum_embeddings, spec_sum_mask, spec_mask_expanded, get3, get2.
    rewrite (zip_with_tabulate _ _ _ [] 0) by congruence.
    rewrite (map_tabulate of_int _ 0).
    rewrite HT, Hm. reflexivity.
Qed.

Lemma mean_pool_contract_witness :
  mean_pool Samples.hidden Samples.mask
  = Some (spec_masked_mean Samples.hidden Samples.mask).
Proof.
  apply (mean_pool_contract Samples.hidden Samples.mask); reflexivity.
Defined.

(** C4: on hidden states of size (B, T, H) and a mask of size (B, T) the
    result has size (B, H) and its entries fill that size, whatever B and T
    are. *)
Theorem mean_pool_shape hidden mask :
  shape_ok3 hidden = true ->
  mask_fits hidden mask = true ->
  exists out,
    mean_pool hidden mask = Some out /\
    nrows out = size0 hidden /\ ncols out = size2 hidden /\
    shape_ok2 out = true.
Proof.
  intros Hs Hfit. rewrite (mean_pool_rows _ _ Hfit).
  destruct (shape_ok3_inv _ Hs) as [HB Hrows].
  destruct (mask_fits_inv _ _ Hfit) as (Hl & _ & _ & _).
  eexists; split; [reflexivity|]. simpl. repeat split.
  unfold shape_ok2; simpl. apply andb_true_iff; split.
  - apply Nat.eqb_eq. rewrite zip_with_length. lia.
  - apply forallb_forall. intros v Hv.
    apply zip_with_In in Hv. destruct Hv as (r & m & Hr & _ & ->).
    unfold has_len. apply Nat.eqb_eq. apply pool_row_length.
    apply (Hrows r Hr).
Qed.

Lemma mean_pool_shape_witness :
  exists out,
    mean_pool Samples.hidden Samples.mask = Some out /\
    nrows out = 2%nat /\ ncols out = 2%nat /\ shape_ok2 out = true.
Proof.
  apply (mean_pool_shape Samples.hidden Samples.mask); reflexivity.
Defined.

(** C10: row [i] of the pooled output is a function of row [i] of the
    hidden states and row [i] of the mask: two runs that agree on these rows
    (and on the hidden size) agree on row [i] of the output, whatever the
    other examples of the two batches hold. *)
Theorem mean_pool_row_independent hidden hidden' mask mask' out out' i :
  mask_fits hidden mask = true ->
  mask_fits hidden' mask' = true ->
  size2 hidden = size2 hidden' ->
  nth_error (data3 hidden) i = nth_error (data3 hidden') i ->
  nth_error (data2 mask) i = nth_error (data2 mask') i ->
  mean_pool hidden mask = Some out ->
  mean_pool hidden' mask' = Some out' ->
  nth_error (data2 out) i = nth_error (data2 out') i.
Proof.
  intros Hfit Hfit' HH Hrow Hm Hout Hout'.
  rewrite (mean_pool_rows _ _ Hfit) in Hout.
  rewrite (mean_pool_rows _ _ Hfit') in Hout'.
  injection Hout as <-. injection Hout' as <-. simpl.
  rewrite !zip_with_nth_error, Hrow, Hm, HH. reflexivity.
Qed.

Lemma mean_pool_row_independent_witness :
  exists out out',
    mean_pool Samples.hidden Samples.mask = Some out /\
    mean_pool Samples.hidden' Samples.mask' = Some out' /\
    nth_error (data2 out) 0 = nth_error (data2 out') 0.
Proof.
  eexists _, _. split; [reflexivity|]. split; [reflexivity|].
  apply (mean_pool_row_independent Samples.hidden Samples.hidden'
           Samples.mask Samples.mask' _ _ 0); reflexivity.
Defined.

(** ** binary32 arithmetic *)

Module F32Facts.

Lemma iter_pos_nat {A : Type} (f : A -> A) p x :
  iter_pos f p x = Nat.iter (Pos.to_nat p) f x.
Proof.
  revert x; induction p as [p IH|p IH|]; intros x; cbn [iter_pos].
  - rewrite !IH, Pos2Nat.inj_xI.
    replace (S (2 * Pos.to_nat p)) with (Pos.to_nat p + S (Pos.to_nat p))%nat
      by lia.
    rewrite Nat.iter_add, Nat.iter_succ_r. reflexivity.
  - rewrite !IH, Pos2Nat.inj_xO.
    replace (2 * Pos.to_nat p)%nat with (Pos.to_nat p + Pos.to_nat p)%nat
      by lia.
    rewrite Nat.iter_add. reflexivity.
  - reflexivity.
Qed.

Lemma pos_iter_shl m p : Pos.iter xO m p = shl m (Pos.to_nat p).
Proof. unfold shl. apply Pos2Nat.inj_iter. Qed.

Lemma shl_add m j k : shl (shl m j) k = shl m (k + j).
Proof. unfold shl. symmetry. apply Nat.iter_add. Qed.

Lemma shl_value m k : Zpos (shl m k) = Zpos m * 2 ^ Z.of_nat k.
Proof.
  induction k as [|k IH].
  - simpl. lia.
  - change (shl m (S k)) with (xO (shl m k)).
    rewrite Pos2Z.inj_xO, IH, Nat2Z.inj_succ, Z.pow_succ_r by lia. lia.
Qed.

Lemma shl_digits m k :
  Zpos (digits2_pos (shl m k)) = Zpos (digits2_pos m) + Z.of_nat k.
Proof.
  induction k as [|k IH].
  - simpl. lia.
  - change (shl m (S k)) with (xO (shl m k)). simpl digits2_pos.
    rewrite Pos2Z.inj_succ, IH. lia.
Qed.

(** Shifting right by the places that were shifted in loses nothing. *)
Lemma shr_shl m k : Nat.iter k shr_1 (exact (shl m k)) = exact m.
Proof.
  induction k as [|k IH]; [reflexivity|].
  rewrite Nat.iter_succ_r. change (shl m (S k)) with (xO (shl m k)).
  exact IH.
Qed.

Lemma bounded_inv m e :
  bounded prec emax m e = true ->
  fexp prec emax (Zpos (digits2_pos m) + e) = e /\ e <= emax - prec.
Proof.
  unfold bounded, canonical_mantissa.
  rewrite andb_true_iff, Z.eqb_eq, Z.leb_le. auto.
Qed.

(** Rounding a number that is in the format leaves it as it is. *)
Lemma round_canonical s m e :
  bounded prec emax m e = true ->
  binary_round_aux prec emax s (Zpos m) e loc_Exact = S754_finite s m e.
Proof.
  intros Hb. destruct (bounded_inv _ _ Hb) as [Hc He].
  unfold binary_round_aux, shr_fexp.
  cbn [Zdigits2]. rewrite Hc, Z.sub_diag.
  cbn [shr shr_record_of_loc loc_of_shr_record round_nearest_even shr_m].
  cbn [Zdigits2]. rewrite Hc, Z.sub_diag.
  cbn [shr shr_record_of_loc shr_m].
  apply Z.leb_le in He. rewrite He. reflexivity.
Qed.

(** The same for a number of the format written with [k] more binary
    places. *)
Lemma round_shifted s m e k :
  bounded prec emax m e = true ->
  binary_round_aux prec emax s (Zpos (shl m k)) (e - Z.of_nat k) loc_Exact
  = S754_finite s m e.
Proof.
  intros Hb. destruct k as [|k].
  { change (shl m 0) with m. replace (e - Z.of_nat 0) with e by lia.
    apply round_canonical, Hb. }
  pose proof (round_canonical s m e Hb) as Hrc.
  destruct (bounded_inv _ _ Hb) as [Hc He].
  unfold binary_round_aux, shr_fexp in *.
  cbn [Zdigits2] in *. rewrite shl_digits.
  replace (Zpos (digits2_pos m) + Z.of_nat (S k) + (e - Z.of_nat (S k)))
    with (Zpos (digits2_pos m) + e) by lia.
  rewrite Hc.
  replace (e - (e - Z.of_nat (S k))) with (Zpos (Pos.of_succ_nat k)) by lia.
  cbn [shr shr_record_of_loc].
  rewrite iter_pos_nat, SuccNat2Pos.id_succ.
  change {| shr_m := Zpos (shl m (S k)); shr_r := false; shr_s := false |}
    with (exact (shl m (S k))).
  rewrite shr_shl.
  replace (e - Z.of_nat (S k) + Zpos (Pos.of_succ_nat k)) with e by lia.
  unfold exact.
  cbn [loc_of_shr_record round_nearest_even shr_m shr_r shr_s].
  rewrite Hc, Z.sub_diag in Hrc.
  cbn [shr shr_record_of_loc loc_of_shr_record round_nearest_even shr_m
       shr_r shr_s] in Hrc.
  exact Hrc.
Qed.

(** The clamp bound is a number of the format, and the one nearest to
    10^-9: 9007199 * 2^-53 is within half a unit in the last place. *)
Lemma min_count_nearest :
  valid min_count = true /\
  min_count = S754_finite false 9007199 (-53) /\
  2 * Z.abs (9007199 * 10 ^ 9 - 2 ^ 53) < 10 ^ 9.
Proof. repeat split. Qed.

(** Multiplying by 1.0 is exact. *)
Lemma mul_one x : valid x = true -> mul x one = x.
Proof.
  destruct x as [s|s| |s m e]; intros Hv.
  - destruct s; reflexivity.
  - destruct s; reflexivity.
  - reflexivity.
  - unfold mul, one, SFmul.
    rewrite Pos.mul_comm.
    change (8388608 * m)%positive with (shl m 23).
    replace (e + -23) with (e - Z.of_nat 23) by lia.
    rewrite xorb_false_r. apply round_shifted, Hv.
Qed.

(** Multiplying a finite number by +0 gives a zero. *)
Lemma mul_zero x : is_finite x = true -> is_zero (mul x zero) = true.
Proof. destruct x as [s|s| |s m e]; intros Hf; try discriminate; reflexivity. Qed.

Lemma div_eucl_shl m j :
  Z.div_eucl (Zpos (shl m (23 + j))) 8388608 = (Zpos (shl m j), 0).
Proof.
  pose proof (Z_div_mod (Zpos (shl m (23 + j))) 8388608 eq_refl) as H.
  destruct (Z.div_eucl (Zpos (shl m (23 + j))) 8388608) as [q r].
  rewrite <- shl_add, shl_value in H. change (2 ^ Z.of_nat 23) with 8388608 in H.
  f_equal; lia.
Qed.

Lemma fexp_eq z : fexp prec emax z = Z.max (z - 24) (-149).
Proof. reflexivity. Qed.

(** Dividing by 1.0 is exact. *)
Lemma div_one x : valid x = true -> div x one = x.
Proof.
  destruct x as [s|s| |s m e]; intros Hv.
  - destruct s; reflexivity.
  - destruct s; reflexivity.
  - reflexivity.
  - destruct (bounded_inv _ _ Hv) as [Hc He]. rewrite fexp_eq in Hc.
    unfold div, one, SFdiv, SFdiv_core_binary.
    change (Zdigits2 (Zpos 8388608)) with 24. cbn [Zdigits2].
    rewrite fexp_eq, xorb_false_r.
    set (d := Zpos (digits2_pos m)) in *.
    destruct (Z.eq_dec e (-149)) as [E|E].
    + replace (Z.min (Z.max (d + e - (24 + -23) - 24) (-149)) (e - -23))
        with (e - Z.of_nat 0) by lia.
      replace (e - -23 - (e - Z.of_nat 0)) with 23 by lia.
      change (Z.shiftl (Zpos m) 23) with (Zpos (shl m (23 + 0))).
      rewrite div_eucl_shl.
      change (new_location 8388608 0) with loc_Exact.
      apply round_shifted, Hv.
    + replace (Z.min (Z.max (d + e - (24 + -23) - 24) (-149)) (e - -23))
        with (e - Z.of_nat 1) by lia.
      replace (e - -23 - (e - Z.of_nat 1)) with 24 by lia.
      change (Z.shiftl (Zpos m) 24) with (Zpos (shl m (23 + 1))).
      rewrite div_eucl_shl.
      change (new_location 8388608 0) with loc_Exact.
      apply round_shifted, Hv.
Qed.

Lemma bounded_iff m e :
  bounded prec emax m e = true <->
  Z.max (Zpos (digits2_pos m) + e - 24) (-149) = e /\ e <= 104.
Proof.
  unfold bounded, canonical_mantissa.
  rewrite andb_true_iff, Z.eqb_eq, Z.leb_le, fexp_eq. reflexivity.
Qed.

Lemma digits_bounds p :
  2 ^ (Zpos (digits2_pos p) - 1) <= Zpos p < 2 ^ Zpos (digits2_pos p).
Proof.
  induction p as [p IH|p IH|]; cbn [digits2_pos].
  - rewrite Pos2Z.inj_succ.
    replace (Z.succ (Zpos (digits2_pos p)) - 1)
      with (Z.succ (Zpos (digits2_pos p) - 1)) by lia.
    rewrite !Z.pow_succ_r by lia. lia.
  - rewrite Pos2Z.inj_succ.
    replace (Z.succ (Zpos (digits2_pos p)) - 1)
      with (Z.succ (Zpos (digits2_pos p) - 1)) by lia.
    rewrite !Z.pow_succ_r by lia. lia.
  - change (1 <= 1 < 2). lia.
Qed.

Lemma digits_le_24 p : Zpos p < 2 ^ 24 -> Zpos (digits2_pos p) <= 24.
Proof.
  intros Hp. destruct (digits_bounds p) as [Hlo _].
  destruct (Z_le_gt_dec (Zpos (digits2_pos p)) 24) as [|Hgt]; [assumption|].
  assert (2 ^ 24 <= 2 ^ (Zpos (digits2_pos p) - 1))
    by (apply Z.pow_le_mono_r; lia).
  lia.
Qed.

Lemma shl_align_fst m e e' :
  e' <= e -> fst (shl_align m e e') = shl m (Z.to_nat (e - e')).
Proof.
  intros Hle. unfold shl_align. destruct (e' - e) as [|q|q] eqn:E.
  - replace (e - e') with 0 by lia. reflexivity.
  - lia.
  - cbn [fst]. rewrite pos_iter_shl. f_equal.
    replace (e - e') with (Zpos q) by lia. reflexivity.
Qed.

Lemma shl_align_snd m e e' : e' <= e -> snd (shl_align m e e') = e'.
Proof.
  intros Hle. unfold shl_align. destruct (e' - e) as [|q|q] eqn:E;
    cbn [snd]; lia.
Qed.

Lemma shl_align_keep m e e' : e <= e' -> shl_align m e e' = (m, e).
Proof.
  intros Hle. unfold shl_align. destruct (e' - e) as [|q|q] eqn:E;
    try reflexivity. lia.
Qed.

Lemma int32_bounded p :
  Zpos (digits2_pos p) <= 24 ->
  bounded prec emax (shl p (Z.to_nat (24 - Zpos (digits2_pos p))))
    (Zpos (digits2_pos p) - 24) = true.
Proof.
  intros Hd. apply bounded_iff. rewrite shl_digits. lia.
Qed.

(** Integers below 2^24 convert without rounding. *)
Lemma of_int_pos p : Zpos p < 2 ^ 24 -> of_int (Zpos p) = int32 p.
Proof.
  intros Hp. pose proof (digits_le_24 p Hp) as Hd.
  unfold of_int, binary_normalize, binary_round.
  rewrite fexp_eq.
  replace (Z.max (Zpos (digits2_pos p) + 0 - 24) (-149))
    with (Zpos (digits2_pos p) - 24) by lia.
  rewrite (surjective_pairing (shl_align p 0 (Zpos (digits2_pos p) - 24))).
  rewrite shl_align_fst, shl_align_snd by lia.
  replace (0 - (Zpos (digits2_pos p) - 24))
    with (24 - Zpos (digits2_pos p)) by lia.
  apply round_canonical, int32_bounded, Hd.
Qed.

(** Adding 1.0 to an integer below 2^24 - 1 is exact. *)
Lemma int32_succ p :
  Zpos p + 1 < 2 ^ 24 -> add (int32 p) one = int32 (p + 1).
Proof.
  intros Hp.
  assert (Hd : Zpos (digits2_pos p) <= 24) by (apply digits_le_24; lia).
  assert (Hd' : Zpos (digits2_pos (p + 1)) <= 24)
    by (apply digits_le_24; lia).
  unfold add, one, int32, SFadd. cbn [cond_Zopp].
  set (d := Zpos (digits2_pos p)) in *.
  set (d' := Zpos (digits2_pos (p + 1))) in *.
  replace (Z.min (d - 24) (-23)) with (-23) by lia.
  rewrite shl_align_fst by lia.
  rewrite (shl_align_keep 8388608 (-23) (-23)) by lia. cbn [fst].
  rewrite shl_add.
  replace (Z.to_nat (d - 24 - -23) + Z.to_nat (24 - d))%nat with 23%nat
    by lia.
  replace (Zpos (shl p 23) + 8388608) with (Zpos (shl (p + 1) 23))
    by (rewrite !shl_value; change (2 ^ Z.of_nat 23) with 8388608; lia).
  cbn [binary_normalize]. unfold binary_round.
  rewrite shl_digits, fexp_eq, shl_align_keep by (fold d'; lia).
  replace (shl (p + 1) 23)
    with (shl (shl (p + 1) (Z.to_nat (24 - d'))) (Z.to_nat (d' - 1)))
    by (rewrite shl_add; f_equal; lia).
  replace (-23) with (d' - 24 - Z.of_nat (Z.to_nat (d' - 1))) by lia.
  apply round_shifted, int32_bounded, Hd'.
Qed.

Lemma add_one_of_int n :
  0 <= n -> n + 1 < 2 ^ 24 -> add (of_int n) one = of_int (n + 1).
Proof.
  intros Hn Hb. destruct n as [|p|p]; [reflexivity| |lia].
  change (Zpos p + 1) with (Zpos (p + 1)).
  rewrite !of_int_pos by lia. apply int32_succ. lia.
Qed.

Lemma add_zero_of_int n : 0 <= n -> add (of_int n) zero = of_int n.
Proof.
  intros Hn. destruct n as [|p|p]; [reflexivity| |lia].
  unfold of_int, binary_normalize, binary_round.
  destruct (shl_align _ _ _) as [mz ez]. unfold binary_round_aux.
  destruct (shr_fexp _ _ _ _ _) as [mrs e'].
  destruct (shr_fexp _ _ _ _ _) as [mrs' e''].
  destruct (shr_m mrs') as [|q|q]; try reflexivity.
  destruct (e'' <=? emax - prec); reflexivity.
Qed.

(** Counts of at least one token are not touched by the clamp. *)
Lemma clamp_of_int p :
  Zpos p < 2 ^ 24 -> clamp_min min_count (of_int (Zpos p)) = of_int (Zpos p).
Proof.
  intros Hp. rewrite of_int_pos by exact Hp.
  pose proof (digits_le_24 p Hp) as Hd.
  unfold int32, clamp_min, ltb, SFltb, min_count, SFcompare.
  destruct (Z.compare_spec (Zpos (digits2_pos p) - 24) (-53)) as [E|E|E];
    try lia. reflexivity.
Qed.

(** *** Equality of values *)

Lemma same_value_refl x : same_value x x.
Proof. left; reflexivity. Qed.

Lemma same_value_sym x y : same_value x y -> same_value y x.
Proof. intros [->|[? ?]]; [left|right]; auto. Qed.

Lemma same_value_trans x y z :
  same_value x y -> same_value y z -> same_value x z.
Proof.
  intros [->|[Hx Hy]] [<-|[Hy' Hz]]; try (left; reflexivity);
    right; auto.
Qed.

Lemma add_zero_r x y : is_zero y = true -> same_value (add x y) x.
Proof.
  destruct y as [sy| | |]; try discriminate. intros _.
  destruct x as [sx|sx| |sx m e]; try (left; reflexivity).
  right. destruct sx, sy; auto.
Qed.

Lemma add_zero_l x : same_value (add zero x) x.
Proof.
  destruct x as [sx|sx| |sx m e]; try (left; reflexivity).
  right. destruct sx; auto.
Qed.

Lemma add_same_value x y z :
  same_value x y -> same_value (add x z) (add y z).
Proof.
  intros [->|[Hx Hy]]; [left; reflexivity|].
  destruct x as [sx| | |]; try discriminate.
  destruct y as [sy| | |]; try discriminate.
  destruct z as [sz|sz| |sz m e]; try (left; reflexivity).
  right. destruct sx, sy, sz; auto.
Qed.

Lemma div_same_value x y z :
  same_value x y -> same_value (div x z) (div y z).
Proof.
  intros [->|[Hx Hy]]; [left; reflexivity|].
  destruct x as [sx| | |]; try discriminate.
  destruct y as [sy| | |]; try discriminate.
  destruct z as [sz|sz| |sz m e]; try (left; reflexivity);
    right; auto.
Qed.

(** *** Sums of zeros and of mask entries *)

Lemma fold_add_zeros l :
  forallb is_zero l = true -> fold_left add l zero = zero.
Proof.
  induction l as [|x l IH]; simpl; [reflexivity|].
  rewrite andb_true_iff. intros [Hx Hl].
  destruct x as [[|]| | |]; try discriminate; apply IH, Hl.
Qed.

Lemma fold_add_mask m c :
  binary_row m = true -> 0 <= c ->
  c + Z.of_nat (kept m) < 2 ^ 24 ->
  fold_left add (map of_int m) (of_int c) = of_int (c + Z.of_nat (kept m)).
Proof.
  revert c; induction m as [|z m IH]; intros c Hm Hc Hb.
  - simpl. f_equal. lia.
  - simpl in Hm. apply andb_true_iff in Hm. destruct Hm as [Hz Hm].
    cbn [map fold_left]. apply orb_true_iff in Hz.
    destruct Hz as [Hz|Hz]; apply Z.eqb_eq in Hz; subst z.
    + change (of_int 0) with zero. rewrite add_zero_of_int by exact Hc.
      apply IH; auto.
    + change (of_int 1) with one. unfold kept in *. cbn [filter] in *.
      change (negb (1 =? 0)) with true in *. cbn [length] in *.
      rewrite add_one_of_int by lia. rewrite IH by (auto; lia).
      f_equal. lia.
Qed.

(** The sum of a 0/1 mask row is its number of ones, below 2^24. *)
Lemma fsum_mask m :
  binary_row m = true -> Z.of_nat (kept m) < 2 ^ 24 ->
  fsum (map of_int m) = of_int (Z.of_nat (kept m)).
Proof.
  intros Hm Hb. unfold fsum. change zero with (of_int 0).
  rewrite fold_add_mask by (auto; lia). reflexivity.
Qed.

End F32Facts.

(** ** One example under a 0/1 mask *)

Import F32Facts.

Lemma masked_terms_zero rows (m : list Z) h :
  forallb (forallb is_finite) rows = true ->
  (forall r, In r rows -> (h < length r)%nat) ->
  zero_row m = true ->
  forallb is_zero
    (zip_with (fun r z => mul (nth h r zero) (of_int z)) rows m) = true.
Proof.
  revert m; induction rows as [|r rows IH]; intros [|z m] Hf Hl Hm;
    try reflexivity.
  simpl in Hf, Hm |- *. apply andb_true_iff in Hf, Hm.
  destruct Hf as [Hr Hf], Hm as [Hz Hm]. apply Z.eqb_eq in Hz. subst z.
  apply andb_true_iff; split.
  - apply mul_zero.
    apply (forallb_nth is_finite r h zero Hr). apply Hl. simpl; auto.
  - apply IH; auto. intros r' Hr'. apply Hl. simpl; auto.
Qed.

Lemma zero_row_floats m :
  zero_row m = true -> forallb is_zero (map of_int m) = true.
Proof.
  induction m as [|z m IH]; simpl; [reflexivity|].
  rewrite !andb_true_iff. intros [Hz Hm]. apply Z.eqb_eq in Hz. subst z.
  split; [reflexivity|]. apply IH, Hm.
Qed.

(** An example without a kept token pools to +0 in every coordinate, when
    its hidden values are finite. *)
Lemma pool_row_zero_mask n rows m :
  (forall r, In r rows -> length r = n) ->
  forallb (forallb is_finite) rows = true ->
  zero_row m = true ->
  pool_row n rows m = repeat zero n.
Proof.
  intros Hl Hf Hm. apply (nth_ext _ _ zero zero).
  - rewrite pool_row_length, repeat_length by exact Hl. reflexivity.
  - intros h Hh. rewrite pool_row_length in Hh by exact Hl.
    rewrite pool_row_nth, nth_repeat_lt by assumption.
    unfold fsum. rewrite !fold_add_zeros.
    + reflexivity.
    + apply zero_row_floats, Hm.
    + apply masked_terms_zero; auto.
      intros r Hr. rewrite (Hl r Hr). exact Hh.
Qed.

Lemma unmasked_In rows m v : In v (unmasked rows m) -> In v rows.
Proof.
  unfold unmasked. intros Hv. apply in_map_iff in Hv.
  destruct Hv as ([r z] & <- & Hp). apply filter_In in Hp.
  destruct Hp as [Hp _]. apply in_combine_l in Hp. exact Hp.
Qed.

Lemma unmasked_length rows m :
  length rows = length m -> length (unmasked rows m) = kept m.
Proof.
  unfold unmasked, kept. rewrite length_map.
  revert m; induction rows as [|r rows IH]; intros [|z m] Hl;
    try discriminate; [reflexivity|].
  simpl. destruct (negb (z =? 0)); simpl; rewrite IH by (simpl in Hl; lia);
    reflexivity.
Qed.

Lemma plain_mean_nth n vs h :
  (forall v, In v vs -> length v = n) -> (h < n)%nat ->
  nth h (plain_mean n vs) zero
  = div (fsum (map (fun v => nth h v zero) vs))
        (of_int (Z.of_nat (length vs))).
Proof.
  intros Hl Hh. unfold plain_mean.
  rewrite (nth_indep _ zero (div zero (of_int (Z.of_nat (length vs)))))
    by (rewrite length_map, sum_rows_length; assumption).
  rewrite (map_nth (fun s => div s (of_int (Z.of_nat (length vs))))).
  rewrite sum_rows_nth by assumption. reflexivity.
Qed.

(** The masked sum and the sum of the kept vectors are one value. *)
Lemma masked_sum_same rows m h acc acc' :
  all_valid rows = true ->
  masked_finite rows m = true ->
  binary_row m = true ->
  (forall r, In r rows -> (h < length r)%nat) ->
  same_value acc acc' ->
  same_value
    (fold_left add
       (zip_with (fun r z => mul (nth h r zero) (of_int z)) rows m) acc)
    (fold_left add (map (fun v => nth h v zero) (unmasked rows m)) acc').
Proof.
  revert m acc acc'; induction rows as [|r rows IH];
    intros [|z m] acc acc' Hv Hf Hm Hl Hacc; try exact Hacc.
  simpl in Hv, Hf, Hm. apply andb_true_iff in Hv, Hf, Hm.
  destruct Hv as [Hr Hv], Hf as [Hrf Hf], Hm as [Hz Hm].
  assert (Hh : (h < length r)%nat) by (apply Hl; simpl; auto).
  assert (Hl' : forall r', In r' rows -> (h < length r')%nat)
    by (intros; apply Hl; simpl; auto).
  unfold unmasked. cbn [zip_with combine filter snd fold_left].
  apply orb_true_iff in Hz. destruct Hz as [Hz|Hz]; apply Z.eqb_eq in Hz;
    subst z.
  - change (negb (0 =? 0)) with false. cbv iota.
    apply (IH m); auto.
    apply same_value_trans with acc; [|exact Hacc].
    apply add_zero_r. change (of_int 0) with zero. apply mul_zero.
    simpl in Hrf. apply (forallb_nth is_finite r h zero Hrf Hh).
  - change (negb (1 =? 0)) with true. cbv iota. cbn [map fst fold_left].
    apply (IH m); auto.
    change (of_int 1) with one. rewrite mul_one.
    + apply add_same_value, Hacc.
    + apply (forallb_nth valid r h zero Hr Hh).
Qed.

(** Under a 0/1 mask that keeps between 1 and 2^24 - 1 tokens, an example
    pools to the mean of the kept token vectors. *)
Lemma pool_row_is_mean n rows m h :
  (forall r, In r rows -> length r = n) ->
  length rows = length m ->
  all_valid rows = true ->
  masked_finite rows m = true ->
  binary_row m = true ->
  (1 <= kept m)%nat -> Z.of_nat (kept m) < 2 ^ 24 ->
  (h < n)%nat ->
  same_value (nth h (pool_row n rows m) zero)
             (nth h (plain_mean n (unmasked rows m)) zero).
Proof.
  intros Hl Hlen Hv Hf Hm Hk Hb Hh.
  rewrite pool_row_nth by assumption.
  rewrite plain_mean_nth
    by (auto; intros v Hin; apply Hl, (unmasked_In _ _ _ Hin)).
  rewrite unmasked_length by exact Hlen.
  rewrite fsum_mask by assumption.
  destruct (Z.of_nat (kept m)) as [|p|p] eqn:E; try lia.
  rewrite clamp_of_int by exact Hb.
  apply div_same_value. unfold fsum.
  apply masked_sum_same; auto using same_value_refl.
  intros r Hr. rewrite (Hl r Hr). exact Hh.
Qed.

Lemma unmasked_ones rows m :
  length rows = length m -> ones_row m = true -> unmasked rows m = rows.
Proof.
  unfold unmasked.
  revert m; induction rows as [|r rows IH]; intros [|z m] Hl Hm;
    try discriminate; [reflexivity|].
  simpl in Hm. apply andb_true_iff in Hm. destruct Hm as [Hz Hm].
  apply Z.eqb_eq in Hz. subst z. simpl. f_equal. apply IH; auto.
Qed.

Lemma kept_dropped m : (kept m + dropped m = length m)%nat.
Proof.
  unfold kept, dropped. induction m as [|z m IH]; simpl; [reflexivity|].
  destruct (z =? 0); simpl; lia.
Qed.

Lemma forallb_combine_nth {A B : Type} (p : A * B -> bool) xs ys i da db :
  forallb p (combine xs ys) = true ->
  (i < length xs)%nat -> (i < length ys)%nat ->
  p (nth i xs da, nth i ys db) = true.
Proof.
  revert ys i; induction xs as [|x xs IH]; intros [|y ys] [|i]; simpl;
    intros Hp Hx Hy; try lia; apply andb_true_iff in Hp; destruct Hp as [H1 H2].
  - exact H1.
  - apply IH; auto; lia.
Qed.

(** ** Masked means *)

(** C2, as the code has it: for hidden states of the binary32 format whose
    values at dropped positions are finite, and a 0/1 mask that drops k of
    the T positions of an example with T - k at least 1 and below 2^24, the
    pooled vector of the example is, as a value, the mean of exactly the
    T - k kept token vectors; for an example that keeps every position this
    is the plain mean over the sequence dimension. *)
Theorem mean_pool_is_masked_mean hidden mask :
  shape_ok3 hidden = true ->
  mask_fits hidden mask = true ->
  all_entries valid hidden = true ->
  dropped_finite hidden mask = true ->
  forallb binary_row (data2 mask) = true ->
  forallb kept_exact (data2 mask) = true ->
  exists out,
    mean_pool hidden mask = Some out /\
    forall b, (b < size0 hidden)%nat ->
      let rows := nth b (data3 hidden) [] in
      let m := nth b (data2 mask) [] in
      length (unmasked rows m) = (size1 hidden - dropped m)%nat /\
      (ones_row m = true -> unmasked rows m = rows) /\
      forall h, (h < size2 hidden)%nat ->
        same_value (get2 zero out b h)
                   (nth h (plain_mean (size2 hidden) (unmasked rows m)) zero).
Proof.
  intros Hs Hfit Hv Hf Hbin Hk. rewrite (mean_pool_rows _ _ Hfit).
  destruct (shape_ok3_inv _ Hs) as [HB Hrows].
  destruct (mask_fits_inv _ _ Hfit) as (Hl & _ & _ & Hm).
  eexists; split; [reflexivity|]. intros b Hb rows m.
  assert (Hin : In rows (data3 hidden)) by (apply nth_In; lia).
  assert (Hinm : In m (data2 mask)) by (apply nth_In; lia).
  destruct (Hrows _ Hin) as [HT' HH]. specialize (Hm _ Hinm).
  assert (Hlen : length rows = length m) by congruence.
  pose proof (kept_dropped m) as Hkd.
  repeat split.
  - rewrite unmasked_length by exact Hlen. lia.
  - intros Hones. apply unmasked_ones; assumption.
  - intros h Hh. unfold get2; cbn [data2].
    rewrite (zip_with_nth (pool_row (size2 hidden)) _ _ b [] [] [])
      by lia.
    fold rows m. apply pool_row_is_mean; auto.
    + unfold all_entries in Hv. rewrite forallb_forall in Hv. apply Hv, Hin.
    + apply (forallb_combine_nth
               (fun p => masked_finite (fst p) (snd p)) _ _ b [] [] Hf); lia.
    + rewrite forallb_forall in Hbin. apply Hbin, Hinm.
    + rewrite forallb_forall in Hk. specialize (Hk m Hinm).
      apply andb_true_iff in Hk. apply Nat.leb_le, Hk.
    + rewrite forallb_forall in Hk. specialize (Hk m Hinm).
      apply andb_true_iff in Hk. apply Z.ltb_lt, Hk.
Qed.

Lemma mean_pool_is_masked_mean_witness :
  exists out,
    mean_pool Samples.hidden Samples.mask = Some out /\
    forall b, (b < 2)%nat ->
      let rows := nth b (data3 Samples.hidden) [] in
      let m := nth b (data2 Samples.mask) [] in
      length (unmasked rows m) = (2 - dropped m)%nat /\
      (ones_row m = true -> unmasked rows m = rows) /\
      forall h, (h < 2)%nat ->
        same_value (get2 zero out b h)
                   (nth h (plain_mean 2 (unmasked rows m)) zero).
Proof.
  apply (mean_pool_is_masked_mean Samples.hidden Samples.mask);
    reflexivity.
Defined.

(** C2 as stated fails on the code: a dropped position that holds an
    infinity turns the pooled coordinate into NaN, which is not the mean of
    the kept vectors. *)
Lemma masked_mean_needs_finite :
  ~ (forall hidden mask out,
       shape_ok3 hidden = true ->
       mask_fits hidden mask = true ->
       all_entries valid hidden = true ->
       forallb binary_row (data2 mask) = true ->
       mean_pool hidden mask = Some out ->
       forall b h, (b < size0 hidden)%nat -> (h < size2 hidden)%nat ->
         same_value (get2 zero out b h)
           (nth h (plain_mean (size2 hidden)
                     (unmasked (nth b (data3 hidden) [])
                               (nth b (data2 mask) []))) zero)).
Proof.
  intros H.
  specialize (H Samples.hidden_inf Samples.mask_10 _
                eq_refl eq_refl eq_refl eq_refl eq_refl 0%nat 0%nat).
  destruct H as [H|[H _]]; try discriminate; simpl; lia.
Qed.

(** C3: for finite hidden states and a mask that is zero everywhere, the
    pooling raises no error and every entry of the result is a finite
    number, neither NaN nor an infinity, of magnitude at most the clamp
    bound 1e-9. *)
Theorem mean_pool_zero_mask_finite hidden mask :
  shape_ok3 hidden = true ->
  mask_fits hidden mask = true ->
  all_entries is_finite hidden = true ->
  forallb zero_row (data2 mask) = true ->
  exists out,
    mean_pool hidden mask = Some out /\
    all_entries2
      (fun x => is_finite x && negb (is_nan x) && negb (is_inf x)
                && leb (abs x) min_count) out = true.
Proof.
  intros Hs Hfit Hf Hz. rewrite (mean_pool_rows _ _ Hfit).
  destruct (shape_ok3_inv _ Hs) as [HB Hrows].
  eexists; split; [reflexivity|].
  unfold all_entries2; cbn [data2]. apply forallb_forall. intros v Hv.
  apply zip_with_In in Hv. destruct Hv as (rows & m & Hr & Hm & ->).
  rewrite pool_row_zero_mask.
  - apply forallb_forall. intros x Hx. apply repeat_spec in Hx. subst x.
    reflexivity.
  - apply (Hrows rows Hr).
  - unfold all_entries in Hf. rewrite forallb_forall in Hf. apply Hf, Hr.
  - rewrite forallb_forall in Hz. apply Hz, Hm.
Qed.

Lemma mean_pool_zero_mask_finite_witness :
  exists out,
    mean_pool Samples.hidden Samples.zero_mask = Some out /\
    all_entries2
      (fun x => is_finite x && negb (is_nan x) && negb (is_inf x)
                && leb (abs x) min_count) out = true.
Proof.
  apply (mean_pool_zero_mask_finite Samples.hidden Samples.zero_mask);
    reflexivity.
Defined.

(** C9, as the code has it: an example whose mask row is zero everywhere
    and whose hidden values are finite pools to exactly +0 in every
    coordinate, whatever the other examples of the batch hold. *)
Theorem mean_pool_zero_row_exact hidden mask out b rows m :
  shape_ok3 hidden = true ->
  mask_fits hidden mask = true ->
  nth_error (data3 hidden) b = Some rows ->
  nth_error (data2 mask) b = Some m ->
  forallb (forallb is_finite) rows = true ->
  zero_row m = true ->
  mean_pool hidden mask = Some out ->
  nth_error (data2 out) b = Some (repeat zero (size2 hidden)).
Proof.
  intros Hs Hfit Hrows Hm Hf Hz Hout.
  rewrite (mean_pool_rows _ _ Hfit) in Hout. injection Hout as <-.
  cbn [data2]. rewrite zip_with_nth_error, Hrows, Hm. f_equal.
  apply pool_row_zero_mask; auto.
  destruct (shape_ok3_inv _ Hs) as [_ Hall].
  apply (Hall rows). apply nth_error_In with b. exact Hrows.
Qed.

Lemma mean_pool_zero_row_exact_witness :
  nth_error
    (data2 (T2 2 2 [ [of_int 5; S754_finite false 15728640 (-21)];
                     [zero; zero] ])) 1
  = Some (repeat zero 2).
Proof.
  apply (mean_pool_zero_row_exact Samples.hidden Samples.mask' _ 1%nat
           [ [of_int 1; of_int (-2)]; [of_int 4; of_int 8] ] [0; 0]);
    reflexivity.
Defined.

(** C9 as stated fails on the code: with an infinity among the hidden
    values of the example, the masked sum is NaN and so is the result. *)
Lemma zero_row_needs_finite :
  ~ (forall hidden mask out b,
       shape_ok3 hidden = true ->
       mask_fits hidden mask = true ->
       zero_row (nth b (data2 mask) []) = true ->
       (b < size0 hidden)%nat ->
       mean_pool hidden mask = Some out ->
       nth b (data2 out) [] = repeat zero (size2 hidden)).
Proof.
  intros H.
  specialize (H Samples.hidden_inf Samples.mask_00 _ 0%nat
                eq_refl eq_refl eq_refl (Nat.lt_0_succ 0) eq_refl).
  discriminate H.
Qed.

(** ** The two-token scenario *)

Lemma Forall2_by_nth {A B : Type} (R : A -> B -> Prop) l l' da db :
  length l = length l' ->
  (forall i, (i < length l)%nat -> R (nth i l da) (nth i l' db)) ->
  Forall2 R l l'.
Proof.
  revert l'; induction l as [|x l IH]; intros [|y l'] Hl H;
    try discriminate; constructor.
  - apply (H 0%nat). simpl; lia.
  - apply IH; [simpl in Hl; lia|].
    intros i Hi. apply (H (S i)). simpl; lia.
Qed.

Lemma two_tokens_rows v1 v2 m0 m1 :
  mean_pool (two_tokens v1 v2) (T2 1 2 [ [m0; m1] ])
  = Some (T2 1 (length v1) [ pool_row (length v1) [v1; v2] [m0; m1] ]).
Proof. rewrite mean_pool_rows; reflexivity. Qed.

(** C5, as the code has it: for two token vectors of the binary32 format,
    under the mask [1,1] the pooled vector is, as a value, (v1 + v2) / 2;
    under the mask [1,0] and with finite values in the second vector it is,
    as a value, the first vector. *)
Theorem two_token_scenario v1 v2 :
  length v2 = length v1 ->
  forallb valid v1 = true ->
  forallb valid v2 = true ->
  (exists out,
      mean_pool (two_tokens v1 v2) (T2 1 2 [ [1; 1] ])
      = Some (T2 1 (length v1) [out]) /\
      Forall2 same_value out
        (zip_with (fun a b => div (add a b) two) v1 v2)) /\
  (forallb is_finite v2 = true ->
   exists out,
      mean_pool (two_tokens v1 v2) (T2 1 2 [ [1; 0] ])
      = Some (T2 1 (length v1) [out]) /\
      Forall2 same_value out v1).
Proof.
  intros Hl Hv1 Hv2.
  assert (Hrows : forall r, In r [v1; v2] -> length r = length v1)
    by (intros r [<-|[<-|[]]]; auto).
  split; [|intros Hf2]; rewrite two_tokens_rows;
    (eexists; split; [reflexivity|]).
  - apply (Forall2_by_nth _ _ _ zero zero).
    + rewrite pool_row_length, zip_with_length by exact Hrows. lia.
    + intros h Hh. rewrite pool_row_length in Hh by exact Hrows.
      rewrite pool_row_nth by assumption.
      rewrite (zip_with_nth _ v1 v2 h zero zero zero) by lia.
      unfold fsum. cbn [zip_with map fold_left].
      change (clamp_min min_count (add (add zero (of_int 1)) (of_int 1)))
        with two.
      change (of_int 1) with one.
      rewrite !mul_one
        by (apply forallb_nth; [assumption|lia]).
      apply div_same_value, add_same_value, add_zero_l.
  - apply (Forall2_by_nth _ _ _ zero zero).
    + rewrite pool_row_length by exact Hrows. reflexivity.
    + intros h Hh. rewrite pool_row_length in Hh by exact Hrows.
      rewrite pool_row_nth by assumption.
      unfold fsum. cbn [zip_with map fold_left].
      change (clamp_min min_count (add (add zero (of_int 1)) (of_int 0)))
        with one.
      change (of_int 1) with one. change (of_int 0) with zero.
      assert (Ha : valid (nth h v1 zero) = true)
        by (apply forallb_nth; [assumption|lia]).
      rewrite mul_one by exact Ha.
      rewrite <- (div_one (nth h v1 zero) Ha) at 2.
      apply div_same_value.
      apply same_value_trans with (add zero (nth h v1 zero));
        [|apply add_zero_l].
      apply add_zero_r, mul_zero.
      apply forallb_nth; [assumption|lia].
Qed.

Lemma two_token_scenario_witness :
  (exists out,
      mean_pool (two_tokens [of_int 3; of_int 5] [of_int 7; of_int 10])
        (T2 1 2 [ [1; 1] ])
      = Some (T2 1 2 [out]) /\
      Forall2 same_value out
        (zip_with (fun a b => div (add a b) two)
           [of_int 3; of_int 5] [of_int 7; of_int 10])) /\
  (forallb is_finite [of_int 7; of_int 10] = true ->
   exists out,
      mean_pool (two_tokens [of_int 3; of_int 5] [of_int 7; of_int 10])
        (T2 1 2 [ [1; 0] ])
      = Some (T2 1 2 [out]) /\
      Forall2 same_value out [of_int 3; of_int 5]).
Proof.
  apply (two_token_scenario [of_int 3; of_int 5] [of_int 7; of_int 10]);
    reflexivity.
Defined.

(** C5 as stated fails on the code for the mask [1,0]: an infinity in the
    second vector makes the result NaN instead of the first vector. *)
Lemma two_tokens_second_must_be_finite :
  ~ (forall v1 v2 out,
       length v2 = length v1 ->
       forallb valid v1 = true ->
       forallb valid v2 = true ->
       mean_pool (two_tokens v1 v2) (T2 1 2 [ [1; 0] ])
       = Some (T2 1 (length v1) [out]) ->
       Forall2 same_value out v1).
Proof.
  intros H.
  specialize (H [of_int 3] [pinf] [nan] eq_refl eq_refl eq_refl eq_refl).
  inversion H as [|x y l l' Hxy _]; subst.
  destruct Hxy as [Hxy|[Hxy _]]; discriminate.
Qed.

(** ** The export driver *)

Module DriverFacts.

Import Driver.
Local Open Scope string_scope.

Section Runs.
Variables Tokenizer Encoder Encoding Traced Error World : Type.
Variable handle :
  forall X : Type, call Tokenizer Encoder Encoding Traced X ->
                   World -> (Error + X) * World.

Lemma run_outcome {R : Type} (p : prog Tokenizer Encoder Encoding Traced R) :
  forall w log r w' tr,
    run handle p w log = (r, w', tr) ->
    exists evs, tr = (log ++ evs)%list /\ outcome r evs.
Proof.
  induction p as [x|X c k IH]; intros w log r w' tr Hrun; cbn [run] in Hrun.
  - injection Hrun as <- <- <-. exists []. split.
    + symmetry. apply app_nil_r.
    + reflexivity.
  - destruct (handle X c w) as [[e|x] w1].
    + injection Hrun as <- <- <-. eexists. split; [reflexivity|].
      exists [], (Ev c (inl e)). repeat split.
    + apply IH in Hrun. destruct Hrun as (evs & -> & Hout).
      exists (Ev c (inr x) :: evs). split.
      * rewrite <- app_assoc. reflexivity.
      * destruct r as [e|y]; cbn [outcome] in *.
        -- destruct Hout as (pre & ev & -> & Hpre & Hev).
           exists (Ev c (inr x) :: pre), ev. repeat split; auto.
        -- exact Hout.
Qed.

Lemma raised_not_returned (ev : event Tokenizer Encoder Encoding Traced Error) e :
  raised ev = Some e -> returned ev = false.
Proof.
  unfold raised, returned. destruct (ev_result ev); [reflexivity|discriminate].
Qed.

(** The calls of a run of [main] are an initial part of the calls of the
    script, each made once and in the order of the statements. *)
Lemma main_calls w r w' tr :
  run handle main w [] = (r, w', tr) ->
  map callee tr = firstn (length tr) script_calls.
Proof.
  unfold main, SentenceEmbeddingModel.
  cbn [run bind perform app].
  repeat match goal with
         | |- context [handle ?X ?c ?w0] =>
             destruct (handle X c w0) as [[?e|?x] ?w1]; cbn [run bind perform app]
         end;
    intros H; injection H as <- <- <-; reflexivity.
Qed.

Lemma not_last_in_front {A : Type} (l1 l2 l3 : list A) a x y :
  (l1 ++ [a])%list = (l2 ++ x :: y :: l3)%list -> In x l1.
Proof.
  revert l2; induction l1 as [|c l1 IH]; intros [|b l2] H;
    cbn [app] in H.
  - discriminate H.
  - injection H as _ H. destruct l2; discriminate H.
  - injection H as -> _. left; reflexivity.
  - injection H as _ H. right. apply (IH l2 H).
Qed.

(** C7: in a run of [main], the calls are the calls of the script, each
    made once and in order (nothing is validated first, nothing is
    retried); a call that raises is the last call of the run, and the
    run ends with the very error it raised; a run that ends with an
    error ends with the error of its last call, every earlier call
    having returned. *)
Theorem main_errors_propagate w r w' tr :
  run handle main w [] = (r, w', tr) ->
  map callee tr = firstn (length tr) script_calls /\
  outcome r tr /\
  (forall pre ev post e,
      tr = (pre ++ ev :: post)%list -> raised ev = Some e ->
      post = [] /\ r = inl e).
Proof.
  intros Hrun. split; [apply (main_calls _ _ _ _ Hrun)|].
  destruct (run_outcome _ _ _ _ _ _ Hrun) as (evs & -> & Hout).
  cbn [app]. split; [exact Hout|].
  intros pre ev post e Htr Hev.
  pose proof (raised_not_returned _ _ Hev) as Hnr.
  destruct r as [e'|u]; cbn [outcome] in Hout.
  - destruct Hout as (pre' & ev' & -> & Hpre & Hev').
    destruct post as [|ev2 post].
    + apply app_inj_tail in Htr. destruct Htr as [_ <-].
      split; [reflexivity|]. congruence.
    + exfalso.
      pose proof (not_last_in_front _ _ _ _ _ _ Htr) as Hin'.
      rewrite forallb_forall in Hpre. rewrite (Hpre ev Hin') in Hnr.
      discriminate.
  - exfalso. rewrite forallb_forall in Hout.
    rewrite (Hout ev) in Hnr; [discriminate|].
    rewrite Htr. apply in_elt.
Qed.

(** C8: a run of [main] that succeeds made exactly these calls: the
    tokenizer and the encoder loaded from the fixed path, the hardcoded
    sentence tokenized with padding and truncation, the wrapper traced
    in inference mode, the traced graph saved as "rust_model.ot", the
    confirmation printed.  So it writes that one file, prints that one
    line, and reads neither flags nor environment. *)
Theorem main_success_effects w u w' tr :
  run handle main w [] = (inr u, w', tr) ->
  (exists tok enc encoded input_ids attention_mask traced,
     tr = [ Ev (AutoTokenizer_from_pretrained
                  "./data/models/all-MiniLM-L12-v2") (inr tok);
            Ev (AutoModel_from_pretrained
                  "./data/models/all-MiniLM-L12-v2") (inr enc);
            Ev (tokenizer_call tok "This is a test sentence." "pt"
                  true true) (inr encoded);
            Ev (getitem encoded "input_ids") (inr input_ids);
            Ev (getitem encoded "attention_mask") (inr attention_mask);
            Ev (jit_trace {| model := enc; training := false |}
                  input_ids attention_mask) (inr traced);
            Ev (save traced "rust_model.ot") (inr tt);
            Ev (print "TorchScript model saved to rust_model.ot")
               (inr tt) ]) /\
  flat_map written tr = ["rust_model.ot"] /\
  flat_map printed tr = ["TorchScript model saved to rust_model.ot"] /\
  existsb reads_flags_or_env tr = false.
Proof.
  unfold main, SentenceEmbeddingModel.
  cbn [run bind perform app].
  repeat match goal with
         | |- context [handle ?X ?c ?w0] =>
             destruct (handle X c w0) as [[?e|?x] ?w1];
             cbn [run bind perform app]
         end;
    intros H; try discriminate H.
  injection H as <- <- <-.
  repeat match goal with x : unit |- _ => destruct x end.
  split; [|repeat split].
  do 6 eexists. reflexivity.
Qed.
End Runs.

Lemma main_errors_propagate_witness :
  exists r w' tr,
    run handle_trace_fails main [] [] = (r, w', tr) /\
    r = inl "unsupported operation" /\
    map callee tr = firstn (length tr) script_calls /\
    outcome r tr /\
    (forall pre ev post e,
        tr = (pre ++ ev :: post)%list -> raised ev = Some e ->
        post = [] /\ r = inl e).
Proof.
  eexists _, _, _. split; [reflexivity|]. split; [reflexivity|].
  apply (main_errors_propagate unit unit unit string string Files
           handle_trace_fails [] _ _ _ eq_refl).
Defined.

Lemma main_success_effects_witness :
  exists w' tr,
    run handle_ok main [] [] = (inr tt, w', tr) /\
    w' = [("rust_model.ot", "graph")] /\
    flat_map written tr = ["rust_model.ot"] /\
    flat_map printed tr = ["TorchScript model saved to rust_model.ot"] /\
    existsb reads_flags_or_env tr = false.
Proof.
  eexists _, _. split; [reflexivity|]. split; [reflexivity|].
  apply (main_success_effects unit unit unit string string Files
           handle_ok [] tt _ _ eq_refl).
Defined.
End DriverFacts.

(** * Further properties of the pooling *)

(** ** Masks that do not fit *)

Lemma expand_dim_mismatch {X : Type} (have want : nat) (l : list X) :
  have <> want -> have <> 1%nat -> expand_dim have want l = None.
Proof.
  intros Hw H1. unfold expand_dim.
  destruct (Nat.eqb have want) eqn:E; [apply Nat.eqb_eq in E; contradiction|].
  destruct have as [|[|n]]; try reflexivity. contradiction.
Qed.

Lemma expand_row_last (n : nat) (m : list Z) :
  sequence (map (expand_dim 1 n) (map (fun x => [x]) m))
  = Some (map (fun z => repeat z n) m).
Proof.
  rewrite map_map. apply sequence_map. intros z _. apply expand_dim_one.
Qed.

(** X1: a mask whose sequence length is neither that of the hidden states
    nor 1 (for a batch that is not empty), or whose batch size is neither
    that of the hidden states nor 1, makes the pooling raise: [expand]
    only repeats dimensions of size 1. *)
Theorem mean_pool_mismatch_raises hidden mask :
  shape_ok2 mask = true ->
  ((1 <= nrows mask)%nat /\ ncols mask <> size1 hidden /\
   ncols mask <> 1%nat) \/
  (nrows mask <> size0 hidden /\ nrows mask <> 1%nat) ->
  mean_pool hidden mask = None.
Proof.
  intros Hs Hmis. unfold mean_pool, expand3, unsqueeze_last.
  cbn [size0 size1 size2 data3].
  unfold shape_ok2 in Hs. apply andb_true_iff in Hs. destruct Hs as [Hl _].
  apply Nat.eqb_eq in Hl.
  destruct Hmis as [(Hr & Hc & Hc1)|(Hr & Hr1)].
  - destruct (data2 mask) as [|m ms]; [simpl in Hl; lia|].
    cbn [map sequence]. rewrite expand_row_last.
    rewrite expand_dim_mismatch by assumption. reflexivity.
  - destruct (sequence _) as [d|]; [|reflexivity].
    rewrite expand_dim_mismatch by assumption. reflexivity.
Qed.

Lemma mean_pool_mismatch_raises_witness :
  mean_pool Samples.hidden Samples2.mask_long = None.
Proof.
  apply (mean_pool_mismatch_raises Samples.hidden Samples2.mask_long).
  - reflexivity.
  - left. cbn. repeat split; [lia|discriminate|discriminate].
Defined.

(** ** One mask for the whole batch *)

Lemma forallb_repeat {A : Type} (p : A -> bool) x n :
  p x = true -> forallb p (repeat x n) = true.
Proof.
  intros Hp. induction n as [|n IH]; simpl; [reflexivity|].
  rewrite Hp, IH. reflexivity.
Qed.

Lemma expand3_single_row (hidden : tensor3 float32) (row : list Z) :
  length row = size1 hidden ->
  expand3 (unsqueeze_last (T2 1 (size1 hidden) [row]))
          (size0 hidden) (size1 hidden) (size2 hidden)
  = expand3 (unsqueeze_last
               (T2 (size0 hidden) (size1 hidden)
                   (repeat row (size0 hidden))))
            (size0 hidden) (size1 hidden) (size2 hidden).
Proof.
  intros Hl. symmetry. rewrite expand3_unsqueeze.
  - unfold expand3, unsqueeze_last. cbn [size0 size1 size2 data3 data2 map].
    cbn [sequence]. rewrite expand_row_last, expand_dim_same.
    rewrite expand_dim_one, map_repeat. reflexivity.
  - unfold mask_fits, shape_ok2. cbn [data2 nrows ncols].
    rewrite repeat_length, !Nat.eqb_refl, forallb_repeat; [reflexivity|].
    unfold has_len. apply Nat.eqb_eq, Hl.
Qed.

(** X2: a mask of a single row is accepted for a batch of any size, and
    every example of the batch is pooled with that row. *)
Theorem mean_pool_broadcasts_mask hidden (row : list Z) :
  length row = size1 hidden ->
  mean_pool hidden (T2 1 (size1 hidden) [row])
  = mean_pool hidden
      (T2 (size0 hidden) (size1 hidden) (repeat row (size0 hidden))).
Proof.
  intros Hl. unfold mean_pool. rewrite (expand3_single_row _ _ Hl).
  reflexivity.
Qed.

Lemma mean_pool_broadcasts_mask_witness :
  mean_pool Samples2.hidden3 (T2 1 2 [ [1; 0] ])
  = mean_pool Samples2.hidden3 (T2 3 2 [ [1; 0]; [1; 0]; [1; 0] ]).
Proof.
  apply (mean_pool_broadcasts_mask Samples2.hidden3 [1; 0]). reflexivity.
Defined.

(** ** More binary32 arithmetic *)

Module F32More.

Lemma add_nan_r x : add x nan = nan.
Proof. destruct x as [s|s| |s m e]; reflexivity. Qed.

Lemma add_nan_l x : add nan x = nan.
Proof. destruct x as [s|s| |s m e]; reflexivity. Qed.

Lemma mul_nan_l y : mul nan y = nan.
Proof. destruct y as [s|s| |s m e]; reflexivity. Qed.

Lemma mul_inf_zero x : is_inf x = true -> mul x zero = nan.
Proof. destruct x as [s|s| |s m e]; try discriminate. reflexivity. Qed.

Lemma div_nan_l c : div nan c = nan.
Proof. destruct c as [s|s| |s m e]; reflexivity. Qed.

Lemma fold_add_from_nan l : fold_left add l nan = nan.
Proof.
  induction l as [|x l IH]; [reflexivity|].
  cbn [fold_left]. rewrite add_nan_l. exact IH.
Qed.

(** A NaN among the terms makes the sum NaN. *)
Lemma fold_add_nan l acc : In nan l -> fold_left add l acc = nan.
Proof.
  revert acc; induction l as [|x l IH]; intros acc Hin; [contradiction|].
  cbn [fold_left]. destruct Hin as [->|Hin].
  - rewrite add_nan_r. apply fold_add_from_nan.
  - apply IH, Hin.
Qed.

Lemma add_same_value2 a a' y y' :
  same_value a a' -> same_value y y' -> same_value (add a y) (add a' y').
Proof.
  intros Ha [->|[Hy Hy']].
  - apply add_same_value, Ha.
  - apply same_value_trans with a; [apply add_zero_r, Hy|].
    apply same_value_trans with a'; [exact Ha|].
    apply same_value_sym, add_zero_r, Hy'.
Qed.

Lemma fold_add_same_value l l' acc acc' :
  Forall2 same_value l l' -> same_value acc acc' ->
  same_value (fold_left add l acc) (fold_left add l' acc').
Proof.
  intros H. revert acc acc'.
  induction H as [|y y' l l' Hy _ IH]; intros acc acc' Hacc; [exact Hacc|].
  cbn [fold_left]. apply IH, add_same_value2; assumption.
Qed.

(** Zeros at the end of a sum do not change its value. *)
Lemma fold_add_zeros_same zs acc :
  forallb is_zero zs = true -> same_value (fold_left add zs acc) acc.
Proof.
  revert acc; induction zs as [|z zs IH]; intros acc Hz;
    [apply same_value_refl|].
  cbn [forallb] in Hz. apply andb_true_iff in Hz. destruct Hz as [Hz Hzs].
  cbn [fold_left].
  apply same_value_trans with (add acc z); [apply IH, Hzs|].
  apply add_zero_r, Hz.
Qed.

(** The clamp does not see the sign of a zero. *)
Lemma clamp_same_value x y :
  same_value x y -> clamp_min min_count x = clamp_min min_count y.
Proof.
  intros [->|[Hx Hy]]; [reflexivity|].
  destruct x as [sx| | |]; try discriminate.
  destruct y as [sy| | |]; try discriminate.
  reflexivity.
Qed.

End F32More.

Import F32More.

(** ** What a NaN or an infinity does *)

Lemma get2_pool hidden mask b h :
  (b < length (data3 hidden))%nat -> (b < length (data2 mask))%nat ->
  get2 zero
    (T2 (size0 hidden) (size2 hidden)
        (zip_with (pool_row (size2 hidden)) (data3 hidden) (data2 mask))) b h
  = nth h (pool_row (size2 hidden) (nth b (data3 hidden) [])
             (nth b (data2 mask) [])) zero.
Proof.
  intros Hb Hb'. unfold get2. cbn [data2].
  rewrite (zip_with_nth (pool_row (size2 hidden)) _ _ b [] [] []) by lia.
  reflexivity.
Qed.

(** The rows of one example of well-shaped inputs. *)
Lemma rows_of_example hidden mask b :
  shape_ok3 hidden = true -> mask_fits hidden mask = true ->
  (b < size0 hidden)%nat ->
  let rows := nth b (data3 hidden) [] in
  let m := nth b (data2 mask) [] in
  (b < length (data3 hidden))%nat /\ (b < length (data2 mask))%nat /\
  length rows = size1 hidden /\ length m = size1 hidden /\
  (forall r, In r rows -> length r = size2 hidden).
Proof.
  intros Hs Hfit Hb rows m.
  destruct (shape_ok3_inv _ Hs) as [HB Hrows].
  destruct (mask_fits_inv _ _ Hfit) as (Hl & _ & _ & Hm).
  assert (Hin : In rows (data3 hidden)) by (apply nth_In; lia).
  assert (Hinm : In m (data2 mask)) by (apply nth_In; lia).
  destruct (Hrows _ Hin) as [HT HH].
  repeat split; try lia; auto.
Qed.

(** X3: a NaN among the hidden values of an example, kept or dropped by
    the mask, makes the pooled coordinate of its column NaN; so does an
    infinity at a position where the mask is 0. *)
Theorem mean_pool_nan_poisons hidden mask out b t h :
  shape_ok3 hidden = true ->
  mask_fits hidden mask = true ->
  (b < size0 hidden)%nat -> (t < size1 hidden)%nat ->
  (h < size2 hidden)%nat ->
  is_nan (get3 zero hidden b t h) = true \/
  (is_inf (get3 zero hidden b t h) = true /\ get2 0 mask b t = 0) ->
  mean_pool hidden mask = Some out ->
  get2 zero out b h = nan.
Proof.
  intros Hs Hfit Hb Ht Hh Hbad Hout.
  rewrite (mean_pool_rows _ _ Hfit) in Hout. injection Hout as <-.
  destruct (rows_of_example _ _ b Hs Hfit Hb)
    as (Hb1 & Hb2 & HT & Hm & HH).
  rewrite get2_pool by assumption.
  rewrite pool_row_nth by assumption.
  unfold fsum. rewrite fold_add_nan; [apply div_nan_l|].
  set (rows := nth b (data3 hidden) []) in *.
  set (m := nth b (data2 mask) []) in *.
  set (g := fun (r : list float32) (z : Z) => mul (nth h r zero) (of_int z)).
  assert (Hnth : nth t (zip_with g rows m) zero = nan).
  { rewrite (zip_with_nth g rows m t [] 0 zero) by lia.
    unfold g. unfold get3, get2 in Hbad. fold rows m in Hbad.
    destruct Hbad as [Hn|[Hi Hz]].
    - destruct (nth h (nth t rows []) zero); try discriminate.
      apply mul_nan_l.
    - rewrite Hz. apply mul_inf_zero, Hi. }
  rewrite <- Hnth. apply nth_In. rewrite zip_with_length. lia.
Qed.

Lemma mean_pool_nan_poisons_witness :
  get2 zero (T2 1 2 [ [of_int 3; nan] ]) 0 1 = nan.
Proof.
  apply (mean_pool_nan_poisons Samples2.hidden_nan Samples.mask_10
           _ 0%nat 1%nat 1%nat); try reflexivity; try (cbn; lia).
Defined.

(** ** What the mask hides *)

Lemma nth_map_lt {A B : Type} (f : A -> B) l i da db :
  (i < length l)%nat -> nth i (map f l) db = f (nth i l da).
Proof.
  intros Hi. rewrite (nth_indep _ db (f da)) by (rewrite length_map; exact Hi).
  apply map_nth.
Qed.

Lemma zip_with_app {A B C : Type} (f : A -> B -> C) xs xs' ys ys' :
  length xs = length ys ->
  zip_with f (xs ++ xs') (ys ++ ys') = zip_with f xs ys ++ zip_with f xs' ys'.
Proof.
  revert ys; induction xs as [|x xs IH]; intros [|y ys] Hl;
    try discriminate; [reflexivity|].
  cbn [app zip_with]. f_equal. apply IH. simpl in Hl. lia.
Qed.

(** Two versions of an example that differ only where the mask is 0, by
    finite values, pool to the same value. *)
Lemma pool_row_masked_values n rows rows' m h :
  (forall r, In r rows -> length r = n) ->
  (forall r, In r rows' -> length r = n) ->
  length rows = length m -> length rows' = length m ->
  (h < n)%nat ->
  (forall t, (t < length m)%nat ->
     let x := nth h (nth t rows []) zero in
     let x' := nth h (nth t rows' []) zero in
     (nth t m 0 = 0 -> is_finite x = true /\ is_finite x' = true) /\
     (nth t m 0 <> 0 -> x = x')) ->
  same_value (nth h (pool_row n rows m) zero)
             (nth h (pool_row n rows' m) zero).
Proof.
  intros Hl Hl' HT HT' Hh Hag.
  rewrite !pool_row_nth by assumption.
  apply div_same_value. unfold fsum.
  apply fold_add_same_value; [|apply same_value_refl].
  apply (Forall2_by_nth _ _ _ zero zero).
  - rewrite !zip_with_length. lia.
  - intros t Ht. rewrite zip_with_length in Ht.
    rewrite !(zip_with_nth _ _ m t [] 0 zero) by lia.
    destruct (Hag t ltac:(lia)) as [Hz Hnz].
    destruct (Z.eq_dec (nth t m 0) 0) as [E|E].
    + destruct (Hz E) as [Hf Hf']. rewrite E. right.
      split; apply mul_zero; assumption.
    + left. rewrite (Hnz E). reflexivity.
Qed.

(** X4: the hidden values at positions where the mask is 0 do not matter
    as long as they are finite: two batches of one size that agree wherever
    the mask is not 0 pool, under that mask, to the same values. *)
Theorem mean_pool_ignores_masked_values hidden hidden' mask :
  shape_ok3 hidden = true ->
  shape_ok3 hidden' = true ->
  size0 hidden' = size0 hidden ->
  size1 hidden' = size1 hidden ->
  size2 hidden' = size2 hidden ->
  mask_fits hidden mask = true ->
  (forall b t h,
     (b < size0 hidden)%nat -> (t < size1 hidden)%nat ->
     (h < size2 hidden)%nat ->
     (get2 0 mask b t = 0 ->
      is_finite (get3 zero hidden b t h) = true /\
      is_finite (get3 zero hidden' b t h) = true) /\
     (get2 0 mask b t <> 0 ->
      get3 zero hidden b t h = get3 zero hidden' b t h)) ->
  exists out out',
    mean_pool hidden mask = Some out /\
    mean_pool hidden' mask = Some out' /\
    forall b h, (b < size0 hidden)%nat -> (h < size2 hidden)%nat ->
      same_value (get2 zero out b h) (get2 zero out' b h).
Proof.
  intros Hs Hs' H0 H1 H2 Hfit Hag.
  assert (Hfit' : mask_fits hidden' mask = true)
    by (unfold mask_fits in *; rewrite H0, H1; exact Hfit).
  rewrite (mean_pool_rows _ _ Hfit), (mean_pool_rows _ _ Hfit').
  do 2 eexists. split; [reflexivity|]. split; [reflexivity|].
  intros b h Hb Hh.
  destruct (rows_of_example _ _ b Hs Hfit Hb)
    as (Hb1 & Hb2 & HT & Hm & HH).
  destruct (rows_of_example _ _ b Hs' Hfit' ltac:(lia))
    as (Hb1' & _ & HT' & _ & HH').
  rewrite !get2_pool by assumption. rewrite H2.
  apply pool_row_masked_values; try assumption; try lia.
  - rewrite <- H2. exact HH'.
  - intros t Ht. apply (Hag b t h); lia.
Qed.

Lemma mean_pool_ignores_masked_values_witness :
  exists out out',
    mean_pool Samples.hidden Samples.mask = Some out /\
    mean_pool Samples2.hidden_other_padding Samples.mask = Some out' /\
    forall b h, (b < 2)%nat -> (h < 2)%nat ->
      same_value (get2 zero out b h) (get2 zero out' b h).
Proof.
  apply (mean_pool_ignores_masked_values
           Samples.hidden Samples2.hidden_other_padding Samples.mask);
    try reflexivity.
  intros b t h Hb Ht Hh.
  destruct b as [|[|b]]; [| |cbn in Hb; lia];
    (destruct t as [|[|t]]; [| |cbn in Ht; lia]);
    (destruct h as [|[|h]]; [| |cbn in Hh; lia]);
    cbn; split; intros E; try discriminate; try (split; reflexivity);
    try reflexivity; try (exfalso; apply E; reflexivity).
Defined.

(** ** Padding *)

Lemma zero_row_repeat p : zero_row (repeat 0 p) = true.
Proof. apply forallb_repeat. reflexivity. Qed.

(** Tokens added after an example, finite and masked out, do not change
    its pooled value. *)
Lemma pool_row_padding n rows pad m h :
  (forall r, In r rows -> length r = n) ->
  (forall r, In r pad -> length r = n) ->
  length rows = length m ->
  forallb (forallb is_finite) pad = true ->
  (h < n)%nat ->
  same_value
    (nth h (pool_row n (rows ++ pad) (m ++ repeat 0 (length pad))) zero)
    (nth h (pool_row n rows m) zero).
Proof.
  intros Hl Hp HT Hf Hh.
  assert (Hlp : forall r, In r (rows ++ pad) -> length r = n).
  { intros r Hr. apply in_app_or in Hr. destruct Hr; auto. }
  rewrite !pool_row_nth by assumption.
  rewrite zip_with_app by exact HT. rewrite map_app.
  unfold fsum. rewrite !fold_left_app.
  rewrite (clamp_same_value
             (fold_left add (map of_int (repeat 0 (length pad)))
                (fold_left add (map of_int m) zero))
             (fold_left add (map of_int m) zero)).
  - apply div_same_value, fold_add_zeros_same.
    apply masked_terms_zero; [exact Hf| |apply zero_row_repeat].
    intros r Hr. rewrite (Hp r Hr). exact Hh.
  - apply fold_add_zeros_same, zero_row_floats, zero_row_repeat.
Qed.

Lemma pad_mask_fits hidden pads mask :
  mask_fits hidden mask = true ->
  mask_fits (pad_hidden hidden pads) (pad_mask mask (size1 pads)) = true.
Proof.
  intros Hfit. destruct (mask_fits_inv _ _ Hfit) as (Hl & Hr & Hc & Hm).
  unfold mask_fits, shape_ok2, pad_hidden, pad_mask.
  cbn [data2 nrows ncols size0 size1].
  rewrite length_map, Hl, Hr, Hc, !Nat.eqb_refl. cbn [andb].
  rewrite !andb_true_r. apply forallb_forall. intros m' Hm'.
  apply in_map_iff in Hm'. destruct Hm' as (m & <- & Hin).
  unfold has_len. apply Nat.eqb_eq.
  rewrite length_app, repeat_length, (Hm m Hin). reflexivity.
Qed.

(** X5: padding does not change the embedding.  When every example gets
    more tokens after its last one, with finite hidden values and 0 in the
    mask, the batch still pools without error and to the same values. *)
Theorem mean_pool_padding_invariant hidden mask pads out :
  shape_ok3 hidden = true ->
  mask_fits hidden mask = true ->
  shape_ok3 pads = true ->
  size0 pads = size0 hidden ->
  size2 pads = size2 hidden ->
  all_entries is_finite pads = true ->
  mean_pool hidden mask = Some out ->
  exists out',
    mean_pool (pad_hidden hidden pads) (pad_mask mask (size1 pads))
    = Some out' /\
    forall b h, (b < size0 hidden)%nat -> (h < size2 hidden)%nat ->
      same_value (get2 zero out' b h) (get2 zero out b h).
Proof.
  intros Hs Hfit Hsp Hp0 Hp2 Hf Hout.
  rewrite (mean_pool_rows _ _ Hfit) in Hout. injection Hout as <-.
  rewrite (mean_pool_rows _ _ (pad_mask_fits _ pads _ Hfit)).
  eexists. split; [reflexivity|]. intros b h Hb Hh.
  destruct (rows_of_example _ _ b Hs Hfit Hb)
    as (Hb1 & Hb2 & HT & Hm & HH).
  destruct (shape_ok3_inv _ Hsp) as [HBp Hrowsp].
  assert (Hinp : In (nth b (data3 pads) []) (data3 pads))
    by (apply nth_In; lia).
  destruct (Hrowsp _ Hinp) as [HP HHp].
  rewrite (get2_pool hidden mask) by assumption.
  unfold get2, pad_hidden, pad_mask. cbn [data2 data3 size2].
  rewrite (zip_with_nth (pool_row (size2 hidden)) _ _ b [] [] [])
    by (rewrite ?zip_with_length, ?length_map; lia).
  rewrite (zip_with_nth (@app (list float32)) _ _ b [] [] []) by lia.
  rewrite (nth_map_lt _ _ b []) by lia.
  rewrite <- HP. apply pool_row_padding; try assumption.
  - intros r Hr. rewrite <- Hp2. apply HHp, Hr.
  - lia.
  - unfold all_entries in Hf. rewrite forallb_forall in Hf.
    apply Hf, Hinp.
Qed.

Lemma mean_pool_padding_invariant_witness :
  exists out',
    mean_pool Samples2.hidden_padded Samples2.mask_padded = Some out' /\
    forall b h, (b < 2)%nat -> (h < 2)%nat ->
      same_value
        (get2 zero out' b h)
        (get2 zero
           (T2 2 2 [ [of_int 5; S754_finite false 15728640 (-21)];
                     [of_int 1; of_int (-2)] ]) b h).
Proof.
  apply (mean_pool_padding_invariant Samples.hidden Samples.mask
           Samples2.pads); reflexivity.
Defined.

(** ** Where a NaN cannot come from *)

Module F32NoNaN.










End F32NoNaN.

Import F32NoNaN.

(** ** The denominator *)

Lemma kept_le_length m : (kept m <= length m)%nat.
Proof. pose proof (kept_dropped m). lia. Qed.

(** The clamped sum of a 0/1 mask row of fewer than 2^24 entries: the
    number of ones, or the clamp bound when there is none. *)
Lemma denominator_counts m :
  binary_row m = true -> Z.of_nat (length m) < 2 ^ 24 ->
  clamp_min min_count (fsum (map of_int m))
  = if Nat.eqb (kept m) 0 then min_count else of_int (Z.of_nat (kept m)).
Proof.
  intros Hm Hb. pose proof (kept_le_length m) as Hk.
  rewrite fsum_mask by (auto; lia).
  destruct (kept m) as [|k] eqn:E; [reflexivity|].
  cbn [Nat.eqb]. rewrite Nat2Z.inj_succ, <- Zpos_P_of_succ_nat.
  apply clamp_of_int. rewrite Zpos_P_of_succ_nat. lia.
Qed.

Lemma sum_mask_rows hidden mask :
  mask_fits hidden mask = true ->
  sum_mask hidden mask
  = Some (T2 (size0 hidden) (size2 hidden)
            (map (fun m => map (clamp_min min_count)
                             (sum_rows (size2 hidden)
                                (map (fun z => repeat (of_int z)
                                                 (size2 hidden)) m)))
                 (data2 mask))).
Proof.
  intros Hfit. unfold sum_mask. rewrite (expand3_unsqueeze _ _ Hfit).
  unfold clamp2, sum_dim1, float3. cbn [size0 size1 size2 data3 nrows ncols data2].
  rewrite !map_map. do 2 f_equal. apply map_ext. intros m.
  rewrite map_map.
  rewrite (map_ext (fun z => map of_int (repeat z (size2 hidden)))
                   (fun z => repeat (of_int z) (size2 hidden)))
    by (intros; apply map_repeat).
  reflexivity.
Qed.

(** X6: for a 0/1 mask over sequences of fewer than 2^24 tokens, the
    denominator of the mean is exactly the number of kept tokens of the
    example, and the clamp bound 1e-9 only when the example keeps no
    token. *)
Theorem sum_mask_counts hidden mask :
  mask_fits hidden mask = true ->
  forallb binary_row (data2 mask) = true ->
  Z.of_nat (size1 hidden) < 2 ^ 24 ->
  exists d,
    sum_mask hidden mask = Some d /\
    forall b h, (b < size0 hidden)%nat -> (h < size2 hidden)%nat ->
      let n := kept (nth b (data2 mask) []) in
      get2 zero d b h
      = if Nat.eqb n 0 then min_count else of_int (Z.of_nat n).
Proof.
  intros Hfit Hbin HT. rewrite (sum_mask_rows _ _ Hfit).
  destruct (mask_fits_inv _ _ Hfit) as (Hl & _ & _ & Hm).
  eexists. split; [reflexivity|]. intros b h Hb Hh n.
  assert (Hin : In (nth b (data2 mask) []) (data2 mask))
    by (apply nth_In; lia).
  unfold get2. cbn [data2].
  rewrite (nth_map_lt _ _ b []) by lia.
  rewrite (nth_map_lt _ _ h zero)
    by (rewrite sum_rows_length; [exact Hh | apply expanded_rows_length]).
  rewrite sum_rows_nth by (try exact Hh; apply expanded_rows_length).
  rewrite expanded_column by exact Hh.
  apply denominator_counts.
  - rewrite forallb_forall in Hbin. apply Hbin, Hin.
  - rewrite (Hm _ Hin). exact HT.
Qed.

Lemma sum_mask_counts_witness :
  exists d,
    sum_mask Samples.hidden Samples.mask' = Some d /\
    forall b h, (b < 2)%nat -> (h < 2)%nat ->
      let n := kept (nth b (data2 Samples.mask') []) in
      get2 zero d b h
      = if Nat.eqb n 0 then min_count else of_int (Z.of_nat n).
Proof.
  apply (sum_mask_counts Samples.hidden Samples.mask'); reflexivity.
Defined.

(** ** Finite in, no NaN out *)





(** * Further properties of the export driver *)

Module DriverMore.

Import Driver DriverArgs.
Local Open Scope string_scope.

Section Runs.
Variables Tokenizer Encoder Encoding Traced Error World : Type.
Variable handle :
  forall X : Type, call Tokenizer Encoder Encoding Traced X ->
                   World -> (Error + X) * World.

Ltac run_cases :=
  unfold main, SentenceEmbeddingModel;
  cbn [run bind perform app];
  repeat match goal with
         | |- context [handle ?X ?c ?w0] =>
             destruct (handle X c w0) as [[?e|?x] ?w1];
             cbn [run bind perform app]
         end.


(** X9: in every run of [main], failed or not, the tracer is only ever
    handed the module in inference mode, tokenizer and encoder are only
    loaded from the one fixed path, and a save is only asked for under the
    name "rust_model.ot". *)
Theorem main_call_arguments w r w' tr :
  run handle main w [] = (r, w', tr) ->
  existsb traced_in_training tr = false /\
  incl (flat_map loaded_from tr) ["./data/models/all-MiniLM-L12-v2"] /\
  incl (flat_map save_target tr) ["rust_model.ot"].
Proof.
  run_cases; intros H; injection H as <- <- <-;
    (split; [reflexivity|]); split; cbn;
    intros s Hs; cbn in Hs; cbn; tauto.
Qed.
End Runs.


Lemma main_call_arguments_witness :
  exists r w' tr,
    run handle_trace_fails main [] [] = (r, w', tr) /\
    existsb traced_in_training tr = false /\
    incl (flat_map loaded_from tr) ["./data/models/all-MiniLM-L12-v2"] /\
    incl (flat_map save_target tr) ["rust_model.ot"].
Proof.
  eexists _, _, _. split; [reflexivity|].
  apply (main_call_arguments unit unit unit string string Files
           handle_trace_fails [] _ _ _ eq_refl).
Defined.

End DriverMore.
